(** * The quiz engines of [quiz_app.py] and [q/q.py]

    A shallow embedding of the two Streamlit quiz flows:
    - [QuizApp]: the inline quiz of [quiz_app.py] (fixed [QUESTIONS] list,
      session keys [current], [score], [finished]);
    - [Q]: the student and teacher panels of [q/q.py] (questions and attempts
      in a document database, session keys [index], [score], [answers]).

    A Streamlit script is re-executed from the top at every user interaction;
    the only data that survives is [st.session_state] and the database.  One
    execution of the script is therefore a function from the widget inputs and
    the surviving state to the new state, the elements it emitted and the way
    the run ended.

    Modelling choices.
    - Python [str] is [string]; [==] on strings is [String.eqb].
    - Marks are numbers ([int] literals in [quiz_app.py], the value of a
      [st.number_input] in [q.py]); they are modelled as [Z]; [sum(...)] is the
      left fold Python computes, starting at [0].
    - A list indexed out of range raises [IndexError]: [nth_error] returns
      [None] and the run ends in [IndexErrorRaised] with the state as it was
      when the exception left the script.
    - [st.radio] returns [None] when nothing is selected (or there is nothing
      to select): the selection is an [option string]. *)

From Stdlib Require Import String Ascii List ZArith Bool Arith Lia.
Import ListNotations.

Local Open Scope string_scope.
Local Open Scope list_scope.

(** ** Data shared by the two scripts *)

(** The keys of a question dict that the quiz flows read:
    [q["question"]], [q["options"]], [q["answer"]], [q["marks"]]. *)
Record Question : Type := mkQuestion {
  question : string;
  options  : list string;
  answer   : string;
  marks    : Z
}.

(** How one execution of a script ends: it runs to its last line, it calls
    [st.rerun()], or [QUESTIONS[i]] / [questions[i]] raises. *)
Inductive run_end : Type :=
| ScriptEnd
| RerunRequested
| IndexErrorRaised.

(** [sum(q["marks"] for q in questions)]. *)
Definition sum_marks (questions : list Question) : Z :=
  fold_left (fun acc q => (acc + marks q)%Z) questions 0%Z.

(** [choice == q["answer"]], where [choice] is what [st.radio] returned. *)
Definition choice_eq (choice : option string) (ans : string) : bool :=
  match choice with
  | Some c => String.eqb c ans
  | None => false
  end.

(** [s.upper()].  [str.upper] follows Unicode; on text of ASCII characters
    it maps a to z onto A to Z and leaves every other character alone, and
    that is what is modelled: statements that depend on which spellings of a
    course code match are made for ASCII text ([ascii_text]). *)
Definition upper_ascii (c : ascii) : ascii :=
  let n := nat_of_ascii c in
  if (97 <=? n)%nat && (n <=? 122)%nat then ascii_of_nat (n - 32) else c.

Fixpoint upper (s : string) : string :=
  match s with
  | EmptyString => EmptyString
  | String c s' => String (upper_ascii c) (upper s')
  end.

(** [x in xs] for strings. *)
Definition mem (x : string) (xs : list string) : bool :=
  existsb (String.eqb x) xs.

(** Text made of ASCII characters only ([s.isascii()]). *)
Fixpoint ascii_text (s : string) : bool :=
  match s with
  | EmptyString => true
  | String c s' => (nat_of_ascii c <? 128)%nat && ascii_text s'
  end.

(** The questions of [qs] whose selection, taken in order from [choices],
    equals the answer. *)
Definition answered_correctly (qs : list Question)
    (choices : list (option string)) : list Question :=
  map fst (filter (fun qc => choice_eq (snd qc) (answer (fst qc)))
                  (combine qs choices)).

(** What a quiz run to its end yields: the final score, the verdict on each
    answer, and the number of presses of the submit button it took. *)
Record outcome : Type := mkOutcome {
  final_score : Z;
  verdicts    : list bool;
  submissions : nat
}.

(** ** [q/q.py]: database-backed student and teacher panels *)
Module Q.

(** A document of [db.questions]. *)
Record question_doc : Type := mkQuestionDoc {
  course_code : string;
  body : Question
}.

(** The dict appended to [st.session_state.answers]. *)
Record AnswerRecord : Type := mkAnswer {
  a_question : string;
  selected   : option string;
  correct    : string;
  is_correct : bool
}.

(** A document of [db.attempts]. *)
Record attempt : Type := mkAttempt {
  att_username    : string;
  att_course_code : string;
  att_score       : Z;
  max_score       : Z;
  details         : list AnswerRecord;
  timestamp       : string
}.

(** The two collections; [find] returns documents in insertion order and
    [insert_one] adds at the end. *)
Record database : Type := mkDb {
  questions : list question_doc;
  attempts  : list attempt
}.

Definition add_question (course qtext : string) (opts : list string)
    (ans : string) (mk : Z) (db : database) : database :=
  mkDb (questions db ++ [mkQuestionDoc (upper course) (mkQuestion qtext opts ans mk)])
       (attempts db).

Definition get_questions (course : string) (db : database) : list Question :=
  map body
      (filter (fun d => String.eqb (course_code d) (upper course)) (questions db)).

(** [now] stands for [datetime.utcnow().isoformat()]. *)
Definition save_attempt (username course : string) (sc mx : Z)
    (dt : list AnswerRecord) (now : string) (db : database) : database :=
  mkDb (questions db)
       (attempts db ++ [mkAttempt username (upper course) sc mx dt now]).

(** The three session keys of the student panel. *)
Record session : Type := mkSession {
  index   : nat;
  score   : Z;
  answers : list AnswerRecord
}.

(** [None]: the key ["index"] is not in [st.session_state]. *)
Definition session_state : Type := option session.

Definition fresh : session := mkSession 0 0%Z [].

(** What survives between two executions of the script. *)
Record world : Type := mkWorld {
  db : database;
  st : session_state
}.

Inductive message : Type :=
| NoQuestionsAvailable
| QuestionShown (number total : nat) (q : Question)
| QuizFinished (sc : Z)
| FillAllFields
| AnswerMustBeOption
| QuestionAdded.

(** The teacher's "Add Question" handler, from the check of the fields on;
    [opts] is the list the handler built from the comma separated text. *)
Definition add_question_handler (course qtext : string) (opts : list string)
    (ans : string) (mk : Z) (d : database) : database * message :=
  if (String.eqb course "" || String.eqb qtext "" ||
      match opts with [] => true | _ => false end || String.eqb ans "")%bool
  then (d, FillAllFields)
  else if negb (mem ans opts) then (d, AnswerMustBeOption)
  else (add_question course qtext opts ans mk d, QuestionAdded).

(** The body of the submit handler up to the append to the answer log:
    the verdict, the score update and the appended record. *)
Definition record_answer (q : Question) (choice : option string)
    (s : session) : session :=
  let c := choice_eq choice (answer q) in
  mkSession (index s)
            (if c then (score s + marks q)%Z else score s)
            (answers s ++ [mkAnswer (question q) choice (answer q) c]).

(** The student panel once [questions = get_questions(course)] is known, with
    the database answering: [save_attempt] returns.  [student_quiz_storage]
    below has the execution in which it raises. *)
Definition student_quiz (qs : list Question) (username course now : string)
    (choice : option string) (submit : bool) (w : world)
  : world * list message * run_end :=
  match qs with
  | [] => (w, [NoQuestionsAvailable], ScriptEnd)
  | _ :: _ =>
    let s := match st w with Some s => s | None => fresh end in
    match nth_error qs (index s) with
    | None => (mkWorld (db w) (Some s), [], IndexErrorRaised)
    | Some q =>
      let shown := QuestionShown (index s + 1) (length qs) q in
      if submit then
        let s1 := record_answer q choice s in
        if (index s1 + 1 <? length qs)%nat then
          (mkWorld (db w) (Some (mkSession (index s1 + 1) (score s1) (answers s1))),
           [shown], RerunRequested)
        else
          (mkWorld (save_attempt username course (score s1) (sum_marks qs)
                                 (answers s1) now (db w))
                   (Some fresh),
           [shown; QuizFinished (score s1)], ScriptEnd)
      else (mkWorld (db w) (Some s), [shown], ScriptEnd)
    end
  end.

(** The student panel: nothing happens until a course code is typed; the
    question list is queried at every execution. *)
Definition student_panel (username course now : string)
    (choice : option string) (submit : bool) (w : world)
  : world * list message * run_end :=
  if String.eqb course "" then (w, [], ScriptEnd)
  else student_quiz (get_questions course (db w)) username course now choice submit w.

(** The session the panel works on: the stored keys, or the ones the panel
    sets when ["index"] is missing. *)
Definition session_of (ss : session_state) : session :=
  match ss with Some s => s | None => fresh end.

(** One press of "Submit Answer": the execution it triggers and, when that
    one calls [st.rerun()], the execution that follows with no button
    pressed (the selection plays no part in it).  [now] is read only by the
    execution that saves the attempt. *)
Definition submit_answer (qs : list Question) (username course now : string)
    (choice : option string) (w : world) : world * list message * run_end :=
  let '(w1, out, e) := student_quiz qs username course now choice true w in
  match e with
  | RerunRequested =>
    let '(w2, out2, e2) := student_quiz qs username course now choice false w1 in
    (w2, out ++ out2, e2)
  | _ => (w1, out, e)
  end.

(** A sequence of presses, one selection each. *)
Fixpoint submit_all (qs : list Question) (username course now : string)
    (choices : list (option string)) (w : world) : world :=
  match choices with
  | [] => w
  | c :: cs =>
    submit_all qs username course now cs
               (fst (fst (submit_answer qs username course now c w)))
  end.

(** The attempts saved between two worlds. *)
Definition new_attempts (w w' : world) : list attempt :=
  skipn (length (attempts (db w))) (attempts (db w')).

(** The worlds the student panel can be in over a question list [qs]: the
    session keys are absent at first, then any execution of the panel, with
    or without a press of the button. *)
Inductive reachable (qs : list Question) : world -> Prop :=
| reach_start : forall d, reachable qs (mkWorld d None)
| reach_run : forall w username course now choice submit,
    reachable qs w ->
    reachable qs (fst (fst (student_quiz qs username course now choice submit w))).

(** The record the handler appends for question [q] and selection [c]. *)
Definition record_of (q : Question) (c : option string) : AnswerRecord :=
  mkAnswer (question q) c (answer q) (choice_eq c (answer q)).

(** The points a logged answer brought: the marks of its question when it
    was judged correct. *)
Definition points_awarded (q : Question) (r : AnswerRecord) : Z :=
  if is_correct r then marks q else 0%Z.

(** The points of a whole log, the k-th record being an answer to the k-th
    question. *)
Definition log_points (qs : list Question) (log : list AnswerRecord) : Z :=
  fold_left Z.add
            (map (fun qr => points_awarded (fst qr) (snd qr)) (combine qs log))
            0%Z.

(** The log the handler builds when the selections [choices] answer the
    questions [qs] in order. *)
Definition log_for (qs : list Question) (choices : list (option string))
  : list AnswerRecord :=
  map (fun qc => record_of (fst qc) (snd qc)) (combine qs choices).

(** The invariant of the session keys: as many records as the index says,
    and a score equal to the points of the log. *)
Definition log_agrees (qs : list Question) (s : session) : Prop :=
  length (answers s) = index s /\
  score s = log_points qs (answers s).

(** One press of "Submit Answer" on the panel itself, the question list
    being queried by each execution. *)
Definition panel_submit (username course now : string)
    (choice : option string) (w : world) : world * list message * run_end :=
  let '(w1, out, e) := student_panel username course now choice true w in
  match e with
  | RerunRequested =>
    let '(w2, out2, e2) := student_panel username course now choice false w1 in
    (w2, out ++ out2, e2)
  | _ => (w1, out, e)
  end.

Fixpoint panel_submit_all (username course now : string)
    (choices : list (option string)) (w : world) : world :=
  match choices with
  | [] => w
  | c :: cs =>
    panel_submit_all username course now cs
                     (fst (fst (panel_submit username course now c w)))
  end.

(** How an execution of the student panel ends when the database may fail:
    as before, or with the exception of [insert_one] leaving the script. *)
Inductive storage_end : Type :=
| Ended (e : run_end)
| StorageErrorRaised.

(** The student panel with the database call of the last question made
    explicit: [save_ok] tells whether [insert_one] in [save_attempt]
    returns.  When it raises, the exception leaves the script after the
    score and the log were updated: the index is as it was, nothing is
    saved and nothing is reset. *)
Definition student_quiz_storage (save_ok : bool) (qs : list Question)
    (username course now : string) (choice : option string) (submit : bool)
    (w : world) : world * list message * storage_end :=
  match qs with
  | [] => (w, [NoQuestionsAvailable], Ended ScriptEnd)
  | _ :: _ =>
    let s := match st w with Some s => s | None => fresh end in
    match nth_error qs (index s) with
    | None => (mkWorld (db w) (Some s), [], Ended IndexErrorRaised)
    | Some q =>
      let shown := QuestionShown (index s + 1) (length qs) q in
      if submit then
        let s1 := record_answer q choice s in
        if (index s1 + 1 <? length qs)%nat then
          (mkWorld (db w) (Some (mkSession (index s1 + 1) (score s1) (answers s1))),
           [shown], Ended RerunRequested)
        else if save_ok then
          (mkWorld (save_attempt username course (score s1) (sum_marks qs)
                                 (answers s1) now (db w))
                   (Some fresh),
           [shown; QuizFinished (score s1)], Ended ScriptEnd)
        else
          (mkWorld (db w) (Some s1), [shown], StorageErrorRaised)
      else (mkWorld (db w) (Some s), [shown], Ended ScriptEnd)
    end
  end.

(** The worlds the student panel can be in over [qs] as long as every
    [save_attempt] has returned: the session keys are absent at first, then
    any execution that does not end in the exception of the database. *)
Inductive reachable_saved (qs : list Question) : world -> Prop :=
| saved_start : forall d, reachable_saved qs (mkWorld d None)
| saved_run : forall w save_ok username course now choice submit,
    reachable_saved qs w ->
    snd (student_quiz_storage save_ok qs username course now choice submit w)
      <> StorageErrorRaised ->
    reachable_saved qs
      (fst (fst (student_quiz_storage save_ok qs username course now
                                      choice submit w))).

End Q.

(** ** [quiz_app.py]: the inline quiz *)
Module QuizApp.

Definition QUESTIONS : list Question :=
  [ mkQuestion "Which keyword is used to define a function in Python?"
               ["func"; "def"; "function"; "lambda"] "def" 1;
    mkQuestion "Which data type is immutable?"
               ["list"; "dict"; "set"; "tuple"] "tuple" 1 ].

(** The three session keys, after the initialisation at the top of the
    script. *)
Record session : Type := mkSession {
  current  : nat;
  score    : Z;
  finished : bool
}.

Definition initial : session := mkSession 0 0%Z false.

(** At most one button is pressed in the interaction that triggers a run. *)
Inductive click : Type :=
| NoClick
| RestartQuiz
| SubmitAnswer.

Inductive message : Type :=
| QuizFinished (sc total : Z)
| QuestionShown (number total : nat) (q : Question)
| PleaseSelect
| Correct
| Wrong (ans : string).

(** The comparison of the submit handler and what follows from it: the score
    update and the feedback element. *)
Definition mark_answer (q : Question) (choice : string) (s : session)
  : session * message :=
  if String.eqb choice (answer q)
  then (mkSession (current s) (score s + marks q)%Z (finished s), Correct)
  else (s, Wrong (answer q)).

(** One execution of the script.  The script reads its questions from the
    module-level list only; [qs] stands for that list, so that the flow can
    be stated for any list and compared with the one of [q.py]. *)
Definition app (qs : list Question) (ev : click) (choice : option string)
    (s0 : session) : session * list message * run_end :=
  let s := match ev with RestartQuiz => initial | _ => s0 end in
  if finished s then (s, [QuizFinished (score s) (sum_marks qs)], ScriptEnd)
  else
    match nth_error qs (current s) with
    | None => (s, [], IndexErrorRaised)
    | Some q =>
      let shown := QuestionShown (current s + 1) (length qs) q in
      match ev with
      | SubmitAnswer =>
        match choice with
        | None => (s, [shown; PleaseSelect], ScriptEnd)
        | Some c =>
          let '(s1, m) := mark_answer q c s in
          if (current s1 + 1 <? length qs)%nat then
            (mkSession (current s1 + 1) (score s1) (finished s1),
             [shown; m], RerunRequested)
          else
            (mkSession (current s1) (score s1) true, [shown; m], RerunRequested)
        end
      | _ => (s, [shown], ScriptEnd)
      end
    end.

(** The script as it stands, over its own list. *)
Definition quiz_app : click -> option string -> session
                      -> session * list message * run_end :=
  app QUESTIONS.

(** One press of "Submit answer": the execution it triggers and, when that
    one calls [st.rerun()], the execution that follows with no button
    pressed. *)
Definition submit_answer (qs : list Question) (choice : option string)
    (s : session) : session * list message * run_end :=
  let '(s1, out, e) := app qs SubmitAnswer choice s in
  match e with
  | RerunRequested =>
    let '(s2, out2, e2) := app qs NoClick choice s1 in (s2, out ++ out2, e2)
  | _ => (s1, out, e)
  end.

(** A sequence of presses, one selection each. *)
Fixpoint submit_all (qs : list Question) (choices : list (option string))
    (s : session) : session :=
  match choices with
  | [] => s
  | c :: cs => submit_all qs cs (fst (fst (submit_answer qs c s)))
  end.

End QuizApp.

(** ** The two flows observed from the outside *)

(** The verdicts among the elements the inline script emitted. *)
Fixpoint verdicts_of (out : list QuizApp.message) : list bool :=
  match out with
  | [] => []
  | QuizApp.Correct :: out' => true :: verdicts_of out'
  | QuizApp.Wrong _ :: out' => false :: verdicts_of out'
  | _ :: out' => verdicts_of out'
  end.

(** The database-backed flow played on [qs]: the selections are submitted
    one by one until an attempt is saved; [n] counts the presses so far. *)
Fixpoint db_play (qs : list Question) (username course now : string)
    (choices : list (option string)) (n : nat) (w : Q.world) : option outcome :=
  match choices with
  | [] => None
  | c :: cs =>
    let w' := fst (fst (Q.submit_answer qs username course now c w)) in
    match Q.new_attempts w w' with
    | a :: _ =>
      Some (mkOutcome (Q.att_score a) (map Q.is_correct (Q.details a)) (S n))
    | [] => db_play qs username course now cs (S n) w'
    end
  end.

(** The inline flow played on [qs]: the selections are submitted one by one
    until [finished] is set; [vs] collects the verdicts emitted so far and
    [n] counts the presses. *)
Fixpoint inline_play (qs : list Question) (choices : list (option string))
    (vs : list bool) (n : nat) (s : QuizApp.session) : option outcome :=
  match choices with
  | [] => None
  | c :: cs =>
    let '(s', out, _) := QuizApp.submit_answer qs c s in
    let vs' := vs ++ verdicts_of out in
    if QuizApp.finished s'
    then Some (mkOutcome (QuizApp.score s') vs' (S n))
    else inline_play qs cs vs' (S n) s'
  end.

(** ** Sample data *)

(** A one-question list. *)
Definition two_plus_two : Question :=
  mkQuestion "2+2?" ["3"; "4"; "5"] "4" 1.

(** A question whose answer is none of its options. *)
Definition stray_answer : Question :=
  mkQuestion "2+2?" ["3"; "5"] "4" 1.

(** Three questions with marks 1, 2, 1. *)
Definition three_questions : list Question :=
  [ mkQuestion "2+2?" ["3"; "4"; "5"] "4" 1;
    mkQuestion "3*3?" ["6"; "9"] "9" 2;
    mkQuestion "1+1?" ["2"; "11"] "2" 1 ].

(** A bank with one question of course CS101, no attempt yet, and a student
    who has not started. *)
Definition small_bank : Q.world :=
  Q.mkWorld (Q.add_question "cs101" "2+2?" ["3"; "4"; "5"] "4" 1 (Q.mkDb [] []))
            None.

(** The teacher adds a second question to the bank of [w]. *)
Definition teacher_adds (w : Q.world) : Q.world :=
  Q.mkWorld (Q.add_question "CS101" "3*3?" ["6"; "9"] "9" 2 (Q.db w)) (Q.st w).

(** ** [q/q.py]: accounts *)
Module Accounts.

(** A document of [db.users]. *)
Record user_doc : Type := mkUser {
  username      : string;
  password_hash : string;
  role          : string
}.

Section Hashing.
(** The salt read from the environment, and
    [hashlib.sha256(text.encode()).hexdigest()]. *)
Variables (SALT : string) (sha256_hexdigest : string -> string).

Definition hash_password (password : string) : string :=
  sha256_hexdigest (SALT ++ password)%string.

(** [users.find_one({"username": name})]: the first document with that
    name. *)
Definition find_one (name : string) (users : list user_doc) : option user_doc :=
  find (fun u => String.eqb (username u) name) users.

Definition create_user (name password rl : string) (users : list user_doc)
  : list user_doc * (bool * string) :=
  match find_one name users with
  | Some _ => (users, (false, "Username already exists."))
  | None =>
    (users ++ [mkUser name (hash_password password) rl],
     (true, "User created successfully."))
  end.

(** The dict [{"username": ..., "role": ...}] is the pair returned. *)
Definition authenticate (name password : string) (users : list user_doc)
  : option (string * string) :=
  match find_one name users with
  | Some u =>
    if String.eqb (password_hash u) (hash_password password)
    then Some (username u, role u)
    else None
  | None => None
  end.

End Hashing.
End Accounts.

(** ** [q/q.py]: the teacher's forms *)
Module Teacher.

(** The characters [str.strip()] removes.  [str.strip] follows Unicode; among
    ASCII characters it removes the codes 9 to 13 and 28 to 32, and that is
    what is modelled: statements that depend on what the code strips are
    made for ASCII text ([ascii_text]). *)
Definition is_space (c : ascii) : bool :=
  let n := nat_of_ascii c in
  ((9 <=? n)%nat && (n <=? 13)%nat) || ((28 <=? n)%nat && (n <=? 32)%nat).

Definition is_comma (c : ascii) : bool := Ascii.eqb c ","%char.

Fixpoint lstrip (s : string) : string :=
  match s with
  | EmptyString => EmptyString
  | String c s' => if is_space c then lstrip s' else s
  end.

Fixpoint rstrip (s : string) : string :=
  match s with
  | EmptyString => EmptyString
  | String c s' =>
    match rstrip s' with
    | EmptyString => if is_space c then EmptyString else String c EmptyString
    | r => String c r
    end
  end.

(** [s.strip()]. *)
Definition strip (s : string) : string := rstrip (lstrip s).

(** The piece before the first comma, and the pieces after it. *)
Fixpoint split_pair (s : string) : string * list string :=
  match s with
  | EmptyString => (EmptyString, [])
  | String c s' =>
    let (h, t) := split_pair s' in
    if is_comma c then (EmptyString, h :: t) else (String c h, t)
  end.

(** [s.split(",")]. *)
Definition split_comma (s : string) : list string :=
  let (h, t) := split_pair s in h :: t.

(** [", ".join(xs)]. *)
Fixpoint join (xs : list string) : string :=
  match xs with
  | [] => EmptyString
  | [x] => x
  | x :: rest => (x ++ ", " ++ join rest)%string
  end.

Definition nonempty (s : string) : bool := negb (String.eqb s "").

(** [[o.strip() for o in raw.split(",") if o.strip()]]. *)
Definition parse_options (raw : string) : list string :=
  filter nonempty (map strip (split_comma raw)).

(** A string with no comma in it. *)
Fixpoint no_comma (s : string) : bool :=
  match s with
  | EmptyString => true
  | String c s' => negb (is_comma c) && no_comma s'
  end.

(** What the forms make of every option: not empty, no blank at either end,
    no comma. *)
Definition clean (s : string) : bool :=
  nonempty s && String.eqb (strip s) s && no_comma s.

(** A press of "Add Question" with the text of the options field. *)
Definition add_question_click (course qtext options_raw ans : string) (mk : Z)
    (d : Q.database) : Q.database * Q.message :=
  Q.add_question_handler course qtext (parse_options options_raw) ans mk d.

(** A question as the bank should hold it. *)
Definition well_formed (q : Question) : bool :=
  mem (answer q) (options q) && forallb clean (options q).

(** A text of blanks and commas only. *)
Fixpoint blank (s : string) : bool :=
  match s with
  | EmptyString => true
  | String c s' => (is_space c || is_comma c) && blank s'
  end.

(** Every question of the bank is as the forms make them. *)
Definition bank_well_formed (d : Q.database) : Prop :=
  Forall (fun dq => well_formed (Q.body dq) = true) (Q.questions d).

End Teacher.

(** ** [q/q.py]: managing stored questions *)
Module Bank.

(** A document of [db.questions] with the [_id] the database gave it. *)
Record stored : Type := mkStored {
  doc_id : string;
  doc    : Q.question_doc
}.

Section WithObjectId.
(** [ObjectId(qid)]: the identifier a string denotes, [None] where bson
    raises [InvalidId]. *)
Variable ObjectId : string -> option string.


(** [update_one({"_id": i}, {"$set": ...})] with all five fields set. *)
Fixpoint update_one (i : string) (d : Q.question_doc) (qs : list stored)
  : list stored :=
  match qs with
  | [] => []
  | s :: rest =>
    if String.eqb (doc_id s) i then mkStored (doc_id s) d :: rest
    else s :: update_one i d rest
  end.


(** [None]: [InvalidId] leaves the function. *)
Definition update_question (qid course qtext : string) (opts : list string)
    (ans : string) (mk : Z) (qs : list stored) : option (list stored) :=
  match ObjectId qid with
  | Some i =>
    Some (update_one i (Q.mkQuestionDoc (upper course)
                          (mkQuestion qtext opts ans mk)) qs)
  | None => None
  end.

Inductive message : Type :=
| AnswerMustBeOption
| QuestionUpdated.

(** A press of "Save Changes" for the document shown under [qid], from the
    fields of the edit form; [None] as for [update_question]. *)
Definition save_changes (qid ecourse equestion eoptions eanswer : string)
    (emarks : Z) (qs : list stored) : option (list stored * message) :=
  let opts := Teacher.parse_options eoptions in
  if negb (mem eanswer opts) then Some (qs, AnswerMustBeOption)
  else
    match update_question qid ecourse equestion opts eanswer emarks qs with
    | Some qs' => Some (qs', QuestionUpdated)
    | None => None
    end.

End WithObjectId.

(** The questions of a course among stored documents, as [get_questions]
    returns them. *)
Definition course_questions (course : string) (qs : list stored)
  : list Question :=
  Q.get_questions course (Q.mkDb (map doc qs) []).

End Bank.

(** ** [q/q.py]: analytics *)
Module Stats.

(** The [counts] dict of [question_stats]: question text to the pair
    (correct, total), in the order the texts were first met. *)
Definition counts : Type := list (string * (nat * nat)).

(** [rec = counts.setdefault(qtext, {...}); rec["total"] += 1;
    if is_correct: rec["correct"] += 1]. *)
Fixpoint bump (qtext : string) (ok : bool) (cn : counts) : counts :=
  match cn with
  | [] => [(qtext, ((if ok then 1 else 0)%nat, 1%nat))]
  | (k, (c, t)) :: rest =>
    if String.eqb k qtext
    then (k, ((if ok then S c else c), S t)) :: rest
    else (k, (c, t)) :: bump qtext ok rest
  end.

(** The attempts [db.attempts.find({"course_code": ...})] returns. *)
Definition course_attempts (course : string) (d : Q.database)
  : list Q.attempt :=
  filter (fun a => String.eqb (Q.att_course_code a) (upper course))
         (Q.attempts d).

(** The loop over the attempts and their logged answers; an attempt with an
    empty log is skipped. *)
Definition question_counts (atts : list Q.attempt) : counts :=
  fold_left
    (fun cn a =>
       fold_left (fun cn' r => bump (Q.a_question r) (Q.is_correct r) cn')
                 (Q.details a) cn)
    atts [].

Fixpoint lookup (k : string) (cn : counts) : option (nat * nat) :=
  match cn with
  | [] => None
  | (k', v) :: rest => if String.eqb k' k then Some v else lookup k rest
  end.

(** The logged answers of a list of attempts, in order. *)
Definition all_answers (atts : list Q.attempt) : list Q.AnswerRecord :=
  flat_map Q.details atts.

Definition asked (k : string) (rs : list Q.AnswerRecord) : nat :=
  length (filter (fun r => String.eqb (Q.a_question r) k) rs).

Definition answered_right (k : string) (rs : list Q.AnswerRecord) : nat :=
  length (filter (fun r => String.eqb (Q.a_question r) k && Q.is_correct r) rs).

End Stats.

(** ** The states the inline script can be in *)

(** From the initial session keys, any execution of the script: any button,
    any selection. *)
Inductive inline_reachable (qs : list Question) : QuizApp.session -> Prop :=
| inline_start : inline_reachable qs QuizApp.initial
| inline_run : forall s ev choice,
    inline_reachable qs s ->
    inline_reachable qs (fst (fst (QuizApp.app qs ev choice s))).

(** Marks that are not negative. *)
Definition marks_nonneg (qs : list Question) : Prop :=
  Forall (fun q => (0 <= marks q)%Z) qs.

(** A press with something selected. *)
Definition is_selection (c : option string) : bool :=
  match c with Some _ => true | None => false end.

(** * Properties *)

(** ** Arithmetic and list facts used throughout *)

Lemma fold_add_shift (l : list Question) (a : Z) :
  fold_left (fun acc q => (acc + marks q)%Z) l a = (a + sum_marks l)%Z.
Proof.
  unfold sum_marks. revert a.
  induction l as [|q l IH]; intros a; simpl.
  - lia.
  - rewrite (IH (a + marks q)%Z), (IH (marks q)). lia.
Qed.

Lemma sum_marks_cons (q : Question) (l : list Question) :
  sum_marks (q :: l) = (marks q + sum_marks l)%Z.
Proof.
  unfold sum_marks at 1. simpl. rewrite fold_add_shift. lia.
Qed.

Lemma sum_marks_app (l1 l2 : list Question) :
  sum_marks (l1 ++ l2) = (sum_marks l1 + sum_marks l2)%Z.
Proof.
  induction l1 as [|q l1 IH]; simpl.
  - reflexivity.
  - rewrite !sum_marks_cons, IH. lia.
Qed.

Lemma answered_correctly_cons (q : Question) (qs : list Question)
    (c : option string) (cs : list (option string)) :
  answered_correctly (q :: qs) (c :: cs) =
  if choice_eq c (answer q) then q :: answered_correctly qs cs
  else answered_correctly qs cs.
Proof.
  unfold answered_correctly. simpl.
  destruct (choice_eq c (answer q)); reflexivity.
Qed.

Lemma skipn_nth_error {A : Type} (l : list A) (i : nat) (x : A) :
  nth_error l i = Some x -> skipn i l = x :: skipn (S i) l.
Proof.
  revert i. induction l as [|y l IH]; intros [|i] H; simpl in *; try discriminate.
  - now inversion H.
  - now apply IH.
Qed.

Lemma nth_error_in_range {A : Type} (l : list A) (i : nat) :
  (i < length l)%nat -> exists x, nth_error l i = Some x.
Proof.
  intros H. destruct (nth_error l i) as [x|] eqn:E.
  - now exists x.
  - apply nth_error_None in E. lia.
Qed.

(** ** One press of the button, database-backed flow *)

Section QStep.
Variables (qs : list Question) (username course now : string).

(** A question other than the last: the record is appended, the index moves
    on, and the rerun that follows changes nothing. *)
Lemma q_submit_inner (c : option string) (w : Q.world) (q : Question) :
  nth_error qs (Q.index (Q.session_of (Q.st w))) = Some q ->
  (Q.index (Q.session_of (Q.st w)) + 1 < length qs)%nat ->
  Q.submit_answer qs username course now c w =
  (Q.mkWorld (Q.db w)
     (Some (Q.mkSession (Q.index (Q.session_of (Q.st w)) + 1)
                        (Q.score (Q.record_answer q c (Q.session_of (Q.st w))))
                        (Q.answers (Q.record_answer q c (Q.session_of (Q.st w)))))),
   [Q.QuestionShown (Q.index (Q.session_of (Q.st w)) + 1) (length qs) q] ++
   match nth_error qs (Q.index (Q.session_of (Q.st w)) + 1) with
   | Some q' => [Q.QuestionShown (Q.index (Q.session_of (Q.st w)) + 1 + 1) (length qs) q']
   | None => []
   end,
   ScriptEnd).
Proof.
  intros Hq Hlt.
  destruct (nth_error_in_range qs _ Hlt) as [q' Hq'].
  unfold Q.submit_answer, Q.student_quiz.
  destruct qs as [|q0 l] eqn:Eqs; [simpl in Hlt; lia|].
  fold (Q.session_of (Q.st w)). rewrite Hq.
  cbn [Q.record_answer Q.index].
  apply Nat.ltb_lt in Hlt. rewrite Hlt.
  cbn [Q.st Q.db Q.index]. rewrite Hq'. reflexivity.
Qed.

(** The last question: the attempt is saved with the score and the log
    including this answer, and the session keys are reset. *)
Lemma q_submit_last (c : option string) (w : Q.world) (q : Question) :
  nth_error qs (Q.index (Q.session_of (Q.st w))) = Some q ->
  (Q.index (Q.session_of (Q.st w)) + 1 = length qs)%nat ->
  Q.submit_answer qs username course now c w =
  (Q.mkWorld
     (Q.save_attempt username course
        (Q.score (Q.record_answer q c (Q.session_of (Q.st w)))) (sum_marks qs)
        (Q.answers (Q.record_answer q c (Q.session_of (Q.st w)))) now (Q.db w))
     (Some Q.fresh),
   [Q.QuestionShown (Q.index (Q.session_of (Q.st w)) + 1) (length qs) q;
    Q.QuizFinished (Q.score (Q.record_answer q c (Q.session_of (Q.st w))))],
   ScriptEnd).
Proof.
  intros Hq Hlast.
  unfold Q.submit_answer, Q.student_quiz.
  destruct qs as [|q0 l] eqn:Eqs; [simpl in Hlast; lia|].
  fold (Q.session_of (Q.st w)). rewrite Hq.
  cbn [Q.record_answer Q.index].
  rewrite Hlast, Nat.ltb_irrefl. reflexivity.
Qed.

End QStep.

(** ** Several presses, database-backed flow *)

Section QRun.
Variables (qs : list Question) (username course now : string).

Lemma q_session_eta (s : Q.session) :
  Q.mkSession (Q.index s + 0) (Q.score s + 0) (Q.answers s ++ []) = s.
Proof.
  destruct s as [i sc l]; simpl. now rewrite Nat.add_0_r, Z.add_0_r, app_nil_r.
Qed.

(** While questions remain after them, [cs] presses leave the database as it
    was and move the session [length cs] questions on. *)
Lemma q_submit_all_prefix (cs : list (option string)) :
  forall w : Q.world,
  (Q.index (Q.session_of (Q.st w)) + length cs < length qs)%nat ->
  Q.db (Q.submit_all qs username course now cs w) = Q.db w /\
  Q.session_of (Q.st (Q.submit_all qs username course now cs w)) =
  Q.mkSession
    (Q.index (Q.session_of (Q.st w)) + length cs)
    (Q.score (Q.session_of (Q.st w)) +
     sum_marks (answered_correctly
                  (skipn (Q.index (Q.session_of (Q.st w))) qs) cs))
    (Q.answers (Q.session_of (Q.st w)) ++
     Q.log_for (skipn (Q.index (Q.session_of (Q.st w))) qs) cs).
Proof.
  induction cs as [|c cs IH]; intros w Hlen.
  - simpl. split; [reflexivity|].
    unfold answered_correctly, Q.log_for. rewrite combine_nil. simpl.
    symmetry. apply q_session_eta.
  - simpl in Hlen.
    destruct (nth_error_in_range qs (Q.index (Q.session_of (Q.st w))))
      as [q Hq]; [lia|].
    assert (Hstep := q_submit_inner qs username course now c w q Hq
                       ltac:(lia)).
    cbn [Q.submit_all]. rewrite Hstep. cbn [fst]. clear Hstep.
    specialize (IH (Q.mkWorld (Q.db w)
      (Some (Q.mkSession (Q.index (Q.session_of (Q.st w)) + 1)
         (Q.score (Q.record_answer q c (Q.session_of (Q.st w))))
         (Q.answers (Q.record_answer q c (Q.session_of (Q.st w)))))))).
    cbn [Q.st Q.db Q.session_of Q.index Q.score Q.answers] in IH.
    destruct IH as [IHdb IHst]; [lia|].
    split; [exact IHdb|]. rewrite IHst.
    rewrite (skipn_nth_error _ _ _ Hq), Nat.add_1_r.
    unfold Q.log_for. rewrite answered_correctly_cons. cbn [combine map fst snd].
    unfold Q.record_of at 2. cbn [Q.record_answer Q.score Q.answers].
    f_equal.
    + simpl; lia.
    + destruct (choice_eq c (answer q)); [rewrite sum_marks_cons|]; lia.
    + now rewrite <- app_assoc.
Qed.

(** As many presses as questions remain: the last one saves the attempt and
    resets the session keys. *)
Lemma q_submit_all_complete (cs : list (option string)) :
  forall w : Q.world,
  cs <> [] ->
  (Q.index (Q.session_of (Q.st w)) + length cs = length qs)%nat ->
  Q.submit_all qs username course now cs w =
  Q.mkWorld
    (Q.save_attempt username course
       (Q.score (Q.session_of (Q.st w)) +
        sum_marks (answered_correctly
                     (skipn (Q.index (Q.session_of (Q.st w))) qs) cs))
       (sum_marks qs)
       (Q.answers (Q.session_of (Q.st w)) ++
        Q.log_for (skipn (Q.index (Q.session_of (Q.st w))) qs) cs)
       now (Q.db w))
    (Some Q.fresh).
Proof.
  induction cs as [|c cs IH]; intros w Hne Hlen; [congruence|].
  simpl in Hlen.
  destruct (nth_error_in_range qs (Q.index (Q.session_of (Q.st w))))
    as [q Hq]; [lia|].
  rewrite (skipn_nth_error _ _ _ Hq).
  unfold Q.log_for. rewrite answered_correctly_cons. cbn [combine map fst snd].
  cbn [Q.submit_all].
  destruct cs as [|c' cs'].
  - simpl in Hlen.
    rewrite (q_submit_last qs username course now c w q Hq ltac:(lia)).
    cbn [fst Q.submit_all Q.record_answer Q.score Q.answers].
    unfold answered_correctly. rewrite combine_nil. simpl.
    unfold Q.record_of. f_equal. f_equal.
    destruct (choice_eq c (answer q)); [rewrite sum_marks_cons|];
      unfold sum_marks; simpl; lia.
  - rewrite (q_submit_inner qs username course now c w q Hq ltac:(simpl in Hlen; lia)).
    cbn [fst]. rewrite IH; [|discriminate|cbn; simpl in Hlen; lia].
    cbn [Q.st Q.db Q.session_of Q.index Q.score Q.answers Q.record_answer].
    rewrite Nat.add_1_r. unfold Q.log_for, Q.record_of at 2.
    f_equal. f_equal.
    + destruct (choice_eq c (answer q)); [rewrite sum_marks_cons|]; lia.
    + now rewrite <- app_assoc.
Qed.

End QRun.

(** ** The inline flow, one press and several *)

Section InlineRun.
Variable qs : list Question.

Lemma inline_submit_inner (c : string) (s : QuizApp.session) (q : Question) :
  QuizApp.finished s = false ->
  nth_error qs (QuizApp.current s) = Some q ->
  (QuizApp.current s + 1 < length qs)%nat ->
  QuizApp.submit_answer qs (Some c) s =
  (QuizApp.mkSession (QuizApp.current s + 1)
                     (QuizApp.score (fst (QuizApp.mark_answer q c s))) false,
   [QuizApp.QuestionShown (QuizApp.current s + 1) (length qs) q;
    snd (QuizApp.mark_answer q c s)] ++
   match nth_error qs (QuizApp.current s + 1) with
   | Some q' => [QuizApp.QuestionShown (QuizApp.current s + 1 + 1) (length qs) q']
   | None => []
   end,
   ScriptEnd).
Proof.
  intros Hf Hq Hlt.
  destruct (nth_error_in_range qs _ Hlt) as [q' Hq'].
  apply Nat.ltb_lt in Hlt.
  unfold QuizApp.submit_answer, QuizApp.app. rewrite Hf, Hq.
  unfold QuizApp.mark_answer.
  destruct (String.eqb c (answer q));
    cbn [QuizApp.current QuizApp.score QuizApp.finished fst snd];
    rewrite Hlt, ?Hf; cbn [QuizApp.finished QuizApp.current];
    rewrite Hq'; reflexivity.
Qed.

Lemma inline_submit_last (c : string) (s : QuizApp.session) (q : Question) :
  QuizApp.finished s = false ->
  nth_error qs (QuizApp.current s) = Some q ->
  (QuizApp.current s + 1 = length qs)%nat ->
  QuizApp.submit_answer qs (Some c) s =
  (QuizApp.mkSession (QuizApp.current s)
                     (QuizApp.score (fst (QuizApp.mark_answer q c s))) true,
   [QuizApp.QuestionShown (QuizApp.current s + 1) (length qs) q;
    snd (QuizApp.mark_answer q c s);
    QuizApp.QuizFinished (QuizApp.score (fst (QuizApp.mark_answer q c s)))
                         (sum_marks qs)],
   ScriptEnd).
Proof.
  intros Hf Hq Hlast.
  unfold QuizApp.submit_answer, QuizApp.app. rewrite Hf, Hq.
  unfold QuizApp.mark_answer.
  destruct (String.eqb c (answer q));
    cbn [QuizApp.current QuizApp.score QuizApp.finished fst snd];
    rewrite Hlast, Nat.ltb_irrefl; reflexivity.
Qed.

Lemma mark_answer_score (q : Question) (c : string) (s : QuizApp.session) :
  QuizApp.score (fst (QuizApp.mark_answer q c s)) =
  if choice_eq (Some c) (answer q)
  then (QuizApp.score s + marks q)%Z else QuizApp.score s.
Proof.
  unfold QuizApp.mark_answer, choice_eq.
  destruct (String.eqb c (answer q)); reflexivity.
Qed.

(** While questions remain after them, [cs] answers move the quiz
    [length cs] questions on and leave it unfinished. *)
Lemma inline_submit_all_prefix (cs : list string) :
  forall s : QuizApp.session,
  QuizApp.finished s = false ->
  (QuizApp.current s + length cs < length qs)%nat ->
  QuizApp.submit_all qs (map Some cs) s =
  QuizApp.mkSession
    (QuizApp.current s + length cs)
    (QuizApp.score s +
     sum_marks (answered_correctly (skipn (QuizApp.current s) qs) (map Some cs)))
    false.
Proof.
  induction cs as [|c cs IH]; intros s Hf Hlen.
  - simpl. unfold answered_correctly. rewrite combine_nil. simpl.
    destruct s as [i sc f]; simpl in *. subst f.
    now rewrite Nat.add_0_r, Z.add_0_r.
  - simpl in Hlen.
    destruct (nth_error_in_range qs (QuizApp.current s)) as [q Hq]; [lia|].
    cbn [map QuizApp.submit_all].
    rewrite (inline_submit_inner c s q Hf Hq ltac:(lia)). cbn [fst].
    rewrite IH; [|reflexivity|cbn; lia].
    cbn [QuizApp.current QuizApp.score].
    rewrite (skipn_nth_error _ _ _ Hq), Nat.add_1_r, answered_correctly_cons.
    rewrite mark_answer_score.
    f_equal; [simpl; lia|].
    destruct (choice_eq (Some c) (answer q)); [rewrite sum_marks_cons|]; lia.
Qed.

(** As many answers as questions remain: the last one sets [finished] and
    leaves [current] on the last question. *)
Lemma inline_submit_all_complete (cs : list string) :
  forall s : QuizApp.session,
  cs <> [] ->
  QuizApp.finished s = false ->
  (QuizApp.current s + length cs = length qs)%nat ->
  QuizApp.submit_all qs (map Some cs) s =
  QuizApp.mkSession
    (length qs - 1)
    (QuizApp.score s +
     sum_marks (answered_correctly (skipn (QuizApp.current s) qs) (map Some cs)))
    true.
Proof.
  induction cs as [|c cs IH]; intros s Hne Hf Hlen; [congruence|].
  simpl in Hlen.
  destruct (nth_error_in_range qs (QuizApp.current s)) as [q Hq]; [lia|].
  rewrite (skipn_nth_error _ _ _ Hq).
  cbn [map QuizApp.submit_all]. rewrite answered_correctly_cons.
  destruct cs as [|c' cs'].
  - simpl in Hlen.
    rewrite (inline_submit_last c s q Hf Hq ltac:(lia)).
    cbn [fst map QuizApp.submit_all]. rewrite mark_answer_score.
    unfold answered_correctly. rewrite combine_nil. simpl.
    f_equal; [lia|].
    destruct (String.eqb c (answer q)); unfold sum_marks; simpl; lia.
  - rewrite (inline_submit_inner c s q Hf Hq ltac:(simpl in Hlen; lia)).
    cbn [fst]. rewrite IH; [|discriminate|reflexivity|cbn; simpl in Hlen; lia].
    cbn [QuizApp.current QuizApp.score]. rewrite Nat.add_1_r, mark_answer_score.
    f_equal.
    destruct (choice_eq (Some c) (answer q)); [rewrite sum_marks_cons|]; lia.
Qed.

End InlineRun.

(** ** Scoring *)

(** C1. In both flows the verdict on a submitted option is exact string
    equality with the question's answer, and the score grows by the
    question's marks when the verdict is "correct" and by nothing otherwise.
    In [q.py] the verdict is the [is_correct] field of the appended record;
    in [quiz_app.py] it is the feedback element. *)
Theorem C1_scoring_policy (q : Question) (c : string) :
  (forall s : Q.session,
     exists r : Q.AnswerRecord,
       Q.answers (Q.record_answer q (Some c) s) = Q.answers s ++ [r] /\
       Q.selected r = Some c /\
       (Q.is_correct r = true <-> c = answer q) /\
       Q.score (Q.record_answer q (Some c) s) =
         (Q.score s + if Q.is_correct r then marks q else 0)%Z) /\
  (forall s : QuizApp.session,
     (snd (QuizApp.mark_answer q c s) = QuizApp.Correct <-> c = answer q) /\
     (snd (QuizApp.mark_answer q c s) = QuizApp.Correct \/
      snd (QuizApp.mark_answer q c s) = QuizApp.Wrong (answer q)) /\
     QuizApp.score (fst (QuizApp.mark_answer q c s)) =
       (QuizApp.score s +
        match snd (QuizApp.mark_answer q c s) with
        | QuizApp.Correct => marks q
        | _ => 0
        end)%Z).
Proof.
  split; intros s.
  - exists (Q.record_of q (Some c)). unfold Q.record_answer, Q.record_of.
    cbn [Q.answers Q.score Q.selected Q.is_correct choice_eq].
    repeat split; try apply String.eqb_eq.
    destruct (String.eqb c (answer q)); lia.
  - unfold QuizApp.mark_answer.
    destruct (String.eqb c (answer q)) eqn:E; cbn [fst snd QuizApp.score].
    + apply String.eqb_eq in E. repeat split; auto; lia.
    + apply String.eqb_neq in E. repeat split; auto; try lia.
      * discriminate.
      * intros; contradiction.
Qed.

(** The comparison is sensitive to case and to surrounding blanks. *)
Example scoring_is_case_sensitive :
  Q.is_correct (Q.record_of (mkQuestion "kw?" ["def"; "Def"] "def" 1) (Some "Def"))
  = false.
Proof. reflexivity. Qed.

Example scoring_is_whitespace_sensitive :
  Q.is_correct (Q.record_of (mkQuestion "kw?" ["def"; "Def"] "def" 1) (Some "def "))
  = false.
Proof. reflexivity. Qed.

(** With nothing selected [q.py] records a wrong answer. *)
Lemma q_no_selection_is_wrong (q : Question) (s : Q.session) :
  Q.record_answer q None s =
  Q.mkSession (Q.index s) (Q.score s)
              (Q.answers s ++ [Q.mkAnswer (question q) None (answer q) false]).
Proof. reflexivity. Qed.

(** ** No selection in the inline flow *)

Lemma inline_none_step (qs : list Question) (s : QuizApp.session) :
  fst (fst (QuizApp.submit_answer qs None s)) = s.
Proof.
  unfold QuizApp.submit_answer, QuizApp.app.
  destruct (QuizApp.finished s); [reflexivity|].
  destruct (nth_error qs (QuizApp.current s)); reflexivity.
Qed.

(** C10. In the inline flow a press of "Submit answer" with nothing selected
    changes none of [score], [current], [finished], emits no verdict and asks
    for no rerun; where the button is on the page (quiz unfinished, a current
    question) the run shows the question and the warning and nothing else.
    Hence no number of such presses consumes a question. *)
Theorem C10_no_selection_is_noop (qs : list Question) (s : QuizApp.session)
    (q : Question) :
  QuizApp.finished s = false ->
  nth_error qs (QuizApp.current s) = Some q ->
  QuizApp.app qs QuizApp.SubmitAnswer None s =
    (s, [QuizApp.QuestionShown (QuizApp.current s + 1) (length qs) q;
         QuizApp.PleaseSelect], ScriptEnd) /\
  (forall n : nat, QuizApp.submit_all qs (repeat None n) s = s).
Proof.
  intros Hf Hq. split.
  - unfold QuizApp.app. now rewrite Hf, Hq.
  - induction n as [|n IH]; [reflexivity|].
    cbn [repeat QuizApp.submit_all]. now rewrite inline_none_step.
Qed.

Lemma C10_no_selection_is_noop_witness :
  QuizApp.quiz_app QuizApp.SubmitAnswer None QuizApp.initial =
    (QuizApp.initial,
     [QuizApp.QuestionShown 1 2
        (mkQuestion "Which keyword is used to define a function in Python?"
                    ["func"; "def"; "function"; "lambda"] "def" 1);
      QuizApp.PleaseSelect], ScriptEnd) /\
  QuizApp.submit_all QuizApp.QUESTIONS [None; None; None] QuizApp.initial =
    QuizApp.initial.
Proof.
  destruct (C10_no_selection_is_noop QuizApp.QUESTIONS QuizApp.initial
              (mkQuestion "Which keyword is used to define a function in Python?"
                          ["func"; "def"; "function"; "lambda"] "def" 1))
    as [Hrun Hall]; [reflexivity|reflexivity|].
  split; [exact Hrun|exact (Hall 3%nat)].
Defined.

(** Whatever the state, the session keys are left as they were. *)
Lemma inline_none_state (qs : list Question) (s : QuizApp.session) :
  fst (fst (QuizApp.app qs QuizApp.SubmitAnswer None s)) = s /\
  verdicts_of (snd (fst (QuizApp.app qs QuizApp.SubmitAnswer None s))) = [] /\
  snd (QuizApp.app qs QuizApp.SubmitAnswer None s) <> RerunRequested.
Proof.
  unfold QuizApp.app.
  destruct (QuizApp.finished s); [repeat split; discriminate|].
  destruct (nth_error qs (QuizApp.current s)); repeat split; discriminate.
Qed.

(** ** The answer log of the database-backed flow *)

Lemma fold_add_start (l : list Z) (a : Z) :
  fold_left Z.add l a = (a + fold_left Z.add l 0)%Z.
Proof.
  revert a. induction l as [|x l IH]; intros a; simpl.
  - lia.
  - rewrite (IH (a + x)%Z), (IH x). lia.
Qed.

Lemma combine_snoc {A B : Type} (l : list B) :
  forall (qs : list A) (q : A) (r : B),
  nth_error qs (length l) = Some q ->
  combine qs (l ++ [r]) = combine qs l ++ [(q, r)].
Proof.
  induction l as [|y l IH]; intros [|x qs] q r H; simpl in *; try discriminate.
  - inversion H; subst. now destruct qs.
  - f_equal. now apply IH.
Qed.

Lemma log_points_snoc (qs : list Question) (log : list Q.AnswerRecord)
    (q : Question) (r : Q.AnswerRecord) :
  nth_error qs (length log) = Some q ->
  Q.log_points qs (log ++ [r]) = (Q.log_points qs log + Q.points_awarded q r)%Z.
Proof.
  intros H. unfold Q.log_points.
  rewrite (combine_snoc _ _ _ _ H), map_app, fold_left_app. reflexivity.
Qed.

Lemma log_agrees_fresh (qs : list Question) : Q.log_agrees qs Q.fresh.
Proof.
  split; [reflexivity|]. unfold Q.log_points. simpl. now rewrite combine_nil.
Qed.

Lemma log_agrees_run (qs : list Question) (username course now : string)
    (choice : option string) (submit : bool) (w : Q.world) :
  Q.log_agrees qs (Q.session_of (Q.st w)) ->
  Q.log_agrees qs (Q.session_of
    (Q.st (fst (fst (Q.student_quiz qs username course now choice submit w))))).
Proof.
  intros [Hlen Hsc]. unfold Q.student_quiz.
  destruct qs as [|q0 l] eqn:Eqs; [now split|]. rewrite <- Eqs in *.
  fold (Q.session_of (Q.st w)).
  destruct (nth_error qs (Q.index (Q.session_of (Q.st w)))) as [q|] eqn:Hq;
    [|now split].
  destruct submit; [|now split].
  destruct (Q.index (Q.record_answer q choice (Q.session_of (Q.st w))) + 1
            <? length qs)%nat; [|apply log_agrees_fresh].
  unfold Q.log_agrees.
  cbn [fst Q.st Q.session_of Q.record_answer Q.index Q.score Q.answers].
  rewrite <- Hlen in Hq. split.
  - rewrite length_app. simpl. lia.
  - rewrite (log_points_snoc _ _ _ _ Hq), <- Hsc.
    unfold Q.points_awarded. cbn [Q.is_correct].
    destruct (choice_eq choice (answer q)); lia.
Qed.

Lemma q_reachable_log_agrees (qs : list Question) (w : Q.world) :
  Q.reachable qs w -> Q.log_agrees qs (Q.session_of (Q.st w)).
Proof.
  induction 1 as [d|w u c n ch sb _ IH].
  - apply log_agrees_fresh.
  - now apply log_agrees_run.
Qed.

(** An execution in which the database answers is an execution of
    [student_quiz]. *)
Lemma storage_run_returning (save_ok : bool) (qs : list Question)
    (username course now : string) (choice : option string) (submit : bool)
    (w : Q.world) :
  snd (Q.student_quiz_storage save_ok qs username course now choice submit w)
    <> Q.StorageErrorRaised ->
  Q.student_quiz_storage save_ok qs username course now choice submit w =
  (fst (Q.student_quiz qs username course now choice submit w),
   Q.Ended (snd (Q.student_quiz qs username course now choice submit w))).
Proof.
  unfold Q.student_quiz_storage, Q.student_quiz.
  destruct qs as [|q0 l]; [reflexivity|].
  destruct (nth_error _ _); [|reflexivity].
  destruct submit; [|reflexivity].
  destruct (_ <? _)%nat; [reflexivity|].
  destruct save_ok; [reflexivity|]. cbn [snd]. congruence.
Qed.

Lemma reachable_saved_reachable (qs : list Question) (w : Q.world) :
  Q.reachable_saved qs w -> Q.reachable qs w.
Proof.
  induction 1 as [d|w ok u c n ch sb _ IH Hend].
  - apply Q.reach_start.
  - rewrite (storage_run_returning _ _ _ _ _ _ _ _ Hend). cbn [fst].
    now apply Q.reach_run.
Qed.

(** The last answer with the database failing: the score and the log have
    the answer, the index has not moved, nothing is saved or reset. *)
Lemma failed_save_run (qs : list Question) (username course now : string)
    (choice : option string) (w : Q.world) (q : Question) :
  nth_error qs (Q.index (Q.session_of (Q.st w))) = Some q ->
  (Q.index (Q.session_of (Q.st w)) + 1 = length qs)%nat ->
  Q.student_quiz_storage false qs username course now choice true w =
  (Q.mkWorld (Q.db w)
             (Some (Q.record_answer q choice (Q.session_of (Q.st w)))),
   [Q.QuestionShown (Q.index (Q.session_of (Q.st w)) + 1) (length qs) q],
   Q.StorageErrorRaised).
Proof.
  intros Hq Hlast. unfold Q.student_quiz_storage.
  destruct qs as [|q0 l] eqn:Eqs; [simpl in Hlast; lia|].
  fold (Q.session_of (Q.st w)). rewrite Hq.
  cbn [Q.record_answer Q.index].
  now rewrite Hlast, Nat.ltb_irrefl.
Qed.

(** C4, as the code has it.  In every world the student panel reaches over
    a question list through executions whose [save_attempt] returns, the
    answer log has as many records as the index says, and the score is the
    sum of the points of the logged answers.  An execution whose
    [save_attempt] raises, on the last question, leaves the answer in the
    score and in the log with the index where it was: the log is then one
    record longer than the index says. *)
Theorem C4_log_invariant_saves_return (qs : list Question) (w : Q.world)
    (s : Q.session) (username course now : string) (choice : option string) :
  Q.reachable_saved qs w ->
  Q.st w = Some s ->
  (length (Q.answers s) = Q.index s /\
   Q.score s = Q.log_points qs (Q.answers s)) /\
  ((Q.index s + 1 = length qs)%nat ->
   snd (Q.student_quiz_storage false qs username course now choice true w)
     = Q.StorageErrorRaised /\
   exists s' : Q.session,
     fst (fst (Q.student_quiz_storage false qs username course now
                                      choice true w))
       = Q.mkWorld (Q.db w) (Some s') /\
     Q.index s' = Q.index s /\
     length (Q.answers s') = (Q.index s' + 1)%nat /\
     Q.score s' = Q.log_points qs (Q.answers s')).
Proof.
  intros Hreach Hs.
  assert (H := q_reachable_log_agrees qs w
                 (reachable_saved_reachable qs w Hreach)).
  rewrite Hs in H. cbn [Q.session_of] in H. destruct H as [Hlen Hsc].
  split; [now split|]. intros Hlast.
  assert (Hi : (Q.index s < length qs)%nat) by lia.
  destruct (nth_error_in_range qs _ Hi) as [q Hq].
  assert (Hq' : nth_error qs (Q.index (Q.session_of (Q.st w))) = Some q)
    by now rewrite Hs.
  rewrite (failed_save_run qs username course now choice w q Hq');
    [|rewrite Hs; exact Hlast].
  rewrite Hs. cbn [fst snd Q.session_of]. split; [reflexivity|].
  exists (Q.record_answer q choice s). split; [reflexivity|].
  cbn [Q.record_answer Q.index Q.score Q.answers]. split; [reflexivity|].
  split; [rewrite length_app; simpl; lia|].
  rewrite <- Hlen in Hq.
  rewrite (log_points_snoc _ _ _ _ Hq), <- Hsc.
  unfold Q.points_awarded. cbn [Q.is_correct].
  destruct (choice_eq choice (answer q)); lia.
Qed.

Lemma C4_log_invariant_saves_return_witness :
  (length (Q.answers (Q.mkSession 1 1 [Q.mkAnswer
             "Which keyword is used to define a function in Python?"
             (Some "def") "def" true])) = 1%nat /\
   1%Z = Q.log_points QuizApp.QUESTIONS
           [Q.mkAnswer "Which keyword is used to define a function in Python?"
                       (Some "def") "def" true]) /\
  snd (Q.student_quiz_storage false QuizApp.QUESTIONS "ann" "py" "t0"
         (Some "tuple") true
         (Q.mkWorld (Q.mkDb [] [])
            (Some (Q.mkSession 1 1 [Q.mkAnswer
               "Which keyword is used to define a function in Python?"
               (Some "def") "def" true]))))
    = Q.StorageErrorRaised.
Proof.
  destruct (C4_log_invariant_saves_return QuizApp.QUESTIONS
              (Q.mkWorld (Q.mkDb [] [])
                 (Some (Q.mkSession 1 1 [Q.mkAnswer
                    "Which keyword is used to define a function in Python?"
                    (Some "def") "def" true])))
              (Q.mkSession 1 1 [Q.mkAnswer
                 "Which keyword is used to define a function in Python?"
                 (Some "def") "def" true])
              "ann" "py" "t0" (Some "tuple")) as [Hinv Hfail].
  - exact (Q.saved_run QuizApp.QUESTIONS (Q.mkWorld (Q.mkDb [] []) None)
             true "ann" "py" "t0" (Some "def") true
             (Q.saved_start QuizApp.QUESTIONS (Q.mkDb [] []))
             ltac:(discriminate)).
  - reflexivity.
  - split; [exact Hinv|]. exact (proj1 (Hfail eq_refl)).
Defined.

(** When [save_attempt] raises, the claim's invariant is lost: on the one
    question "2+2?", answered "4" from a fresh session with the database
    failing, the execution ends in the exception with one record in the log
    and the index still at 0. *)
Lemma C4_failed_save_counterexample :
  Q.student_quiz_storage false [two_plus_two] "ann" "cs101" "t0" (Some "4") true
    (Q.mkWorld (Q.mkDb [] []) None)
  = (Q.mkWorld (Q.mkDb [] [])
       (Some (Q.mkSession 0 1 [Q.mkAnswer "2+2?" (Some "4") "4" true])),
     [Q.QuestionShown 1 1 two_plus_two], Q.StorageErrorRaised) /\
  ~ (length (Q.answers (Q.mkSession 0 1 [Q.mkAnswer "2+2?" (Some "4") "4" true]))
     = Q.index (Q.mkSession 0 1 [Q.mkAnswer "2+2?" (Some "4") "4" true])).
Proof.
  split; [reflexivity|]. simpl. discriminate.
Qed.

(** ** Completion *)

Lemma firstn_length_lt {A : Type} (k : nat) (l : list A) :
  (k < length l)%nat -> length (firstn k l) = k.
Proof. intros H. rewrite length_firstn. lia. Qed.

(** C2, as the code has it.  On a non-empty list of N questions, started
    from a fresh session and answered N times: after any k < N answers the
    quiz is not complete and stands at question k; the N-th answer completes
    it.  On completion the inline flow sets [finished] and leaves [current]
    at N - 1; the database-backed flow saves one attempt, whose log has N
    records, and resets its session keys. *)
Theorem C2_completes_on_last_answer (qs : list Question) (cs : list string)
    (username course now : string) (d : Q.database) :
  qs <> [] ->
  length cs = length qs ->
  (forall k : nat, (k < length qs)%nat ->
     QuizApp.submit_all qs (map Some (firstn k cs)) QuizApp.initial =
       QuizApp.mkSession k
         (sum_marks (answered_correctly qs (map Some (firstn k cs)))) false) /\
  QuizApp.finished (QuizApp.submit_all qs (map Some cs) QuizApp.initial) = true /\
  QuizApp.current (QuizApp.submit_all qs (map Some cs) QuizApp.initial) =
    (length qs - 1)%nat /\
  (forall k : nat, (k < length qs)%nat ->
     let w := Q.submit_all qs username course now (map Some (firstn k cs))
                           (Q.mkWorld d None) in
     Q.attempts (Q.db w) = Q.attempts d /\
     Q.index (Q.session_of (Q.st w)) = k /\
     length (Q.answers (Q.session_of (Q.st w))) = k) /\
  (exists a : Q.attempt,
     Q.attempts (Q.db (Q.submit_all qs username course now (map Some cs)
                                    (Q.mkWorld d None)))
       = Q.attempts d ++ [a] /\
     length (Q.details a) = length qs /\
     Q.st (Q.submit_all qs username course now (map Some cs) (Q.mkWorld d None))
       = Some Q.fresh).
Proof.
  intros Hne Hlen.
  assert (Hcs : cs <> []) by (destruct cs, qs; simpl in *; congruence).
  repeat split.
  - intros k Hk.
    rewrite inline_submit_all_prefix;
      [|reflexivity|simpl; rewrite firstn_length_lt; lia].
    simpl. rewrite firstn_length_lt by lia. reflexivity.
  - rewrite inline_submit_all_complete; [reflexivity|assumption|reflexivity|simpl; lia].
  - rewrite inline_submit_all_complete; [reflexivity|assumption|reflexivity|simpl; lia].
  - destruct (q_submit_all_prefix qs username course now
                (map Some (firstn k cs)) (Q.mkWorld d None)) as [Hdb _].
    + simpl. rewrite length_map, firstn_length_lt; lia.
    + now rewrite Hdb.
  - destruct (q_submit_all_prefix qs username course now
                (map Some (firstn k cs)) (Q.mkWorld d None)) as [_ Hst].
    + simpl. rewrite length_map, firstn_length_lt; lia.
    + rewrite Hst. simpl. rewrite length_map, firstn_length_lt; lia.
  - destruct (q_submit_all_prefix qs username course now
                (map Some (firstn k cs)) (Q.mkWorld d None)) as [_ Hst].
    + simpl. rewrite length_map, firstn_length_lt; lia.
    + rewrite Hst. simpl. unfold Q.log_for.
      rewrite length_map, length_combine, length_map, firstn_length_lt; lia.
  - rewrite q_submit_all_complete;
      [|destruct cs; [congruence|discriminate]|simpl; rewrite length_map; lia].
    eexists. split; [reflexivity|]. split; [|reflexivity].
    simpl. unfold Q.log_for.
    rewrite length_map, length_combine, length_map. lia.
Qed.

Lemma C2_completes_on_last_answer_witness :
  QuizApp.QUESTIONS <> [] /\
  length ["def"; "list"] = length QuizApp.QUESTIONS /\
  QuizApp.finished
    (QuizApp.submit_all QuizApp.QUESTIONS (map Some ["def"; "list"])
                        QuizApp.initial) = true /\
  QuizApp.current
    (QuizApp.submit_all QuizApp.QUESTIONS (map Some ["def"; "list"])
                        QuizApp.initial) = (length QuizApp.QUESTIONS - 1)%nat.
Proof.
  assert (Hne : QuizApp.QUESTIONS <> []) by discriminate.
  assert (Hlen : length ["def"; "list"] = length QuizApp.QUESTIONS)
    by reflexivity.
  destruct (C2_completes_on_last_answer QuizApp.QUESTIONS ["def"; "list"]
              "ann" "py" "t0" (Q.mkDb [] []) Hne Hlen)
    as (_ & Hfin & Hcur & _).
  repeat split; assumption.
Defined.

(** The claim's "position equals N on completion" fails in both flows: on the
    two questions of [quiz_app.py], answered twice, the inline flow is
    finished with [current = 1], and the database-backed flow has saved its
    attempt with [index] back at 0. *)
Lemma C2_position_counterexample :
  QuizApp.submit_all QuizApp.QUESTIONS [Some "def"; Some "tuple"]
                     QuizApp.initial
    = QuizApp.mkSession 1 2 true /\
  Q.submit_all QuizApp.QUESTIONS "ann" "py" "t0" [Some "def"; Some "tuple"]
               (Q.mkWorld (Q.mkDb [] []) None)
    = Q.mkWorld
        (Q.mkDb []
           [Q.mkAttempt "ann" "PY" 2 2
              [Q.mkAnswer "Which keyword is used to define a function in Python?"
                          (Some "def") "def" true;
               Q.mkAnswer "Which data type is immutable?"
                          (Some "tuple") "tuple" true] "t0"])
        (Some (Q.mkSession 0 0 [])) /\
  ~ (QuizApp.current
       (QuizApp.submit_all QuizApp.QUESTIONS [Some "def"; Some "tuple"]
                           QuizApp.initial) = length QuizApp.QUESTIONS) /\
  ~ (Q.index (Q.session_of (Q.st
       (Q.submit_all QuizApp.QUESTIONS "ann" "py" "t0"
                     [Some "def"; Some "tuple"]
                     (Q.mkWorld (Q.mkDb [] []) None)))) = length QuizApp.QUESTIONS).
Proof.
  repeat split; try reflexivity; vm_compute; discriminate.
Qed.

(** ** Final score *)



(** The three-question scenario: marks 1, 2, 1, answers right, wrong, right:
    score 2 out of 4. *)
Example scenario_three_questions :
  sum_marks (answered_correctly three_questions [Some "4"; Some "6"; Some "2"]) = 2%Z /\
  sum_marks three_questions = 4%Z /\
  upper "cs101" = "CS101".
Proof. repeat split. Qed.

(** ** After completion *)

(** C5, as the code has it.  Neither flow has an error for a press after
    completion.  In the inline flow, once [finished] is set, a press of the
    submit button with any selection leaves [score], [current] and
    [finished] as they are and only shows the final score.  In the
    database-backed flow the completing press leaves the session keys as a
    fresh session has them, so that a further press does what the first
    press of a new session does. *)
Theorem C5_after_completion (qs : list Question) (cs : list (option string))
    (username course now : string) (d : Q.database)
    (choice : option string) (s : QuizApp.session) :
  QuizApp.finished s = true ->
  qs <> [] ->
  length cs = length qs ->
  QuizApp.submit_answer qs choice s =
    (s, [QuizApp.QuizFinished (QuizApp.score s) (sum_marks qs)], ScriptEnd) /\
  Q.st (Q.submit_all qs username course now cs (Q.mkWorld d None))
    = Some (Q.mkSession 0 0 []) /\
  Q.submit_answer qs username course now choice
      (Q.submit_all qs username course now cs (Q.mkWorld d None))
    = Q.submit_answer qs username course now choice
        (Q.mkWorld
           (Q.db (Q.submit_all qs username course now cs (Q.mkWorld d None)))
           None).
Proof.
  intros Hf Hne Hlen.
  assert (Hcs : cs <> []) by (destruct cs, qs; simpl in *; congruence).
  split; [|split].
  - unfold QuizApp.submit_answer, QuizApp.app. now rewrite Hf.
  - rewrite q_submit_all_complete; [reflexivity|assumption|simpl; lia].
  - rewrite q_submit_all_complete; [|assumption|simpl; lia].
    unfold Q.submit_answer, Q.student_quiz.
    destruct qs as [|q0 l]; [congruence|reflexivity].
Qed.

Lemma C5_after_completion_witness :
  QuizApp.submit_answer QuizApp.QUESTIONS (Some "def")
                        (QuizApp.mkSession 1 2 true)
    = (QuizApp.mkSession 1 2 true,
       [QuizApp.QuizFinished 2 (sum_marks QuizApp.QUESTIONS)], ScriptEnd) /\
  Q.st (Q.submit_all QuizApp.QUESTIONS "ann" "py" "t0"
                     [Some "def"; Some "tuple"] (Q.mkWorld (Q.mkDb [] []) None))
    = Some (Q.mkSession 0 0 []).
Proof.
  destruct (C5_after_completion QuizApp.QUESTIONS [Some "def"; Some "tuple"]
              "ann" "py" "t0" (Q.mkDb [] []) (Some "def")
              (QuizApp.mkSession 1 2 true))
    as (Hi & Hq & _); [reflexivity|discriminate|reflexivity|].
  split; assumption.
Defined.

(** A press after completion of the database-backed flow is not refused: on
    the two questions of [quiz_app.py], completed, a further press ends
    normally and is scored, and the session keys are no longer those left
    at completion. *)
Lemma C5_replay_counterexample :
  Q.submit_answer QuizApp.QUESTIONS "ann" "py" "t1" (Some "def")
    (Q.submit_all QuizApp.QUESTIONS "ann" "py" "t0" [Some "def"; Some "tuple"]
                  (Q.mkWorld (Q.mkDb [] []) None))
  = (Q.mkWorld
       (Q.db (Q.submit_all QuizApp.QUESTIONS "ann" "py" "t0"
                           [Some "def"; Some "tuple"]
                           (Q.mkWorld (Q.mkDb [] []) None)))
       (Some (Q.mkSession 1 1
          [Q.mkAnswer "Which keyword is used to define a function in Python?"
                      (Some "def") "def" true])),
     [Q.QuestionShown 1 2
        (mkQuestion "Which keyword is used to define a function in Python?"
                    ["func"; "def"; "function"; "lambda"] "def" 1);
      Q.QuestionShown 2 2
        (mkQuestion "Which data type is immutable?"
                    ["list"; "dict"; "set"; "tuple"] "tuple" 1)],
     ScriptEnd) /\
  ~ (Q.st (fst (fst
       (Q.submit_answer QuizApp.QUESTIONS "ann" "py" "t1" (Some "def")
          (Q.submit_all QuizApp.QUESTIONS "ann" "py" "t0"
                        [Some "def"; Some "tuple"]
                        (Q.mkWorld (Q.mkDb [] []) None)))))
     = Q.st (Q.submit_all QuizApp.QUESTIONS "ann" "py" "t0"
                          [Some "def"; Some "tuple"]
                          (Q.mkWorld (Q.mkDb [] []) None))).
Proof.
  split; [reflexivity|]. vm_compute. discriminate.
Qed.

(** ** Starting a quiz *)

(** C6, as the code has it.  The student panel sets up no session when the
    question list is empty: it shows a warning and leaves the session keys
    untouched.  On any non-empty list it sets [index = 0], [score = 0] and an
    empty log, whether or not every answer is among its question's options.
    That membership is checked where questions enter the bank: the teacher's
    handler stores no question whose answer is none of its options. *)
Theorem C6_session_start (q : Question) (qs : list Question)
    (username course now : string) (choice : option string) (submit : bool)
    (w : Q.world) (d : Q.database)
    (tcourse qtext ans : string) (opts : list string) (mk : Z) :
  mem ans opts = false ->
  Q.student_quiz [] username course now choice submit w
    = (w, [Q.NoQuestionsAvailable], ScriptEnd) /\
  Q.student_quiz (q :: qs) username course now choice false (Q.mkWorld d None)
    = (Q.mkWorld d (Some (Q.mkSession 0 0 [])),
       [Q.QuestionShown 1 (length (q :: qs)) q], ScriptEnd) /\
  fst (Q.add_question_handler tcourse qtext opts ans mk d) = d /\
  snd (Q.add_question_handler tcourse qtext opts ans mk d) <> Q.QuestionAdded.
Proof.
  intros Hmem. repeat split.
  - unfold Q.add_question_handler. rewrite Hmem.
    destruct (_ || _ || _ || _)%bool; reflexivity.
  - unfold Q.add_question_handler. rewrite Hmem.
    destruct (_ || _ || _ || _)%bool; discriminate.
Qed.

Lemma C6_session_start_witness :
  mem "4" ["3"; "5"] = false /\
  fst (Q.add_question_handler "cs101" "2+2?" ["3"; "5"] "4" 1 (Q.mkDb [] []))
    = Q.mkDb [] [] /\
  Q.add_question_handler "cs101" "2+2?" ["3"; "5"] "4" 1 (Q.mkDb [] [])
    = (Q.mkDb [] [], Q.AnswerMustBeOption).
Proof.
  destruct (C6_session_start two_plus_two [] "ann" "cs101" "t0" None false
              (Q.mkWorld (Q.mkDb [] []) None) (Q.mkDb [] [])
              "cs101" "2+2?" "4" ["3"; "5"] 1 eq_refl)
    as (_ & _ & Hdb & _).
  split; [reflexivity|split; [exact Hdb|reflexivity]].
Defined.

(** A question whose answer is none of its options does not stop the panel
    from setting up a session. *)
Lemma C6_invalid_set_counterexample :
  mem (answer stray_answer) (options stray_answer) = false /\
  Q.student_quiz [stray_answer] "ann" "cs101" "t0" None false
                 (Q.mkWorld (Q.mkDb [] []) None)
    = (Q.mkWorld (Q.mkDb [] []) (Some (Q.mkSession 0 0 [])),
       [Q.QuestionShown 1 1 stray_answer], ScriptEnd).
Proof. split; reflexivity. Qed.

(** ** An option that is not on the list *)

Lemma mem_true_false_neq (a c : string) (l : list string) :
  mem a l = true -> mem c l = false -> String.eqb c a = false.
Proof.
  intros Ha Hc. destruct (String.eqb c a) eqn:E; [|reflexivity].
  apply String.eqb_eq in E. subst c. congruence.
Qed.

(** C7, as the code has it.  On a question whose answer is among its
    options, a submitted string that is none of the options is not refused:
    the press ends normally and logs a record with [is_correct = False]
    without touching the score.  Where a question remains, the index moves on
    by one; on the last question the attempt is saved with that log and that
    score, and the session keys are reset. *)
Theorem C7_unlisted_option (qs : list Question) (username course now : string)
    (w : Q.world) (q : Question) (c : string) :
  nth_error qs (Q.index (Q.session_of (Q.st w))) = Some q ->
  mem (answer q) (options q) = true ->
  mem c (options q) = false ->
  snd (Q.submit_answer qs username course now (Some c) w) = ScriptEnd /\
  fst (fst (Q.submit_answer qs username course now (Some c) w)) =
    if (Q.index (Q.session_of (Q.st w)) + 1 <? length qs)%nat
    then Q.mkWorld (Q.db w)
           (Some (Q.mkSession
                    (Q.index (Q.session_of (Q.st w)) + 1)
                    (Q.score (Q.session_of (Q.st w)))
                    (Q.answers (Q.session_of (Q.st w)) ++
                     [Q.mkAnswer (question q) (Some c) (answer q) false])))
    else Q.mkWorld
           (Q.save_attempt username course
              (Q.score (Q.session_of (Q.st w))) (sum_marks qs)
              (Q.answers (Q.session_of (Q.st w)) ++
               [Q.mkAnswer (question q) (Some c) (answer q) false])
              now (Q.db w))
           (Some Q.fresh).
Proof.
  intros Hq Ha Hc.
  assert (Hneq := mem_true_false_neq _ _ _ Ha Hc).
  assert (Hi : (Q.index (Q.session_of (Q.st w)) < length qs)%nat)
    by (apply nth_error_Some; congruence).
  destruct (Q.index (Q.session_of (Q.st w)) + 1 <? length qs)%nat eqn:E.
  - apply Nat.ltb_lt in E.
    rewrite (q_submit_inner qs username course now (Some c) w q Hq E).
    unfold Q.record_answer. cbn [choice_eq]. rewrite Hneq.
    split; reflexivity.
  - apply Nat.ltb_ge in E.
    rewrite (q_submit_last qs username course now (Some c) w q Hq ltac:(lia)).
    unfold Q.record_answer. cbn [choice_eq]. rewrite Hneq.
    split; reflexivity.
Qed.

Lemma C7_unlisted_option_witness :
  mem "banana" (options two_plus_two) = false /\
  fst (fst (Q.submit_answer three_questions "ann" "cs101" "t0" (Some "banana")
                            (Q.mkWorld (Q.mkDb [] []) None)))
    = Q.mkWorld (Q.mkDb [] [])
        (Some (Q.mkSession 1 0 [Q.mkAnswer "2+2?" (Some "banana") "4" false])).
Proof.
  destruct (C7_unlisted_option three_questions "ann" "cs101" "t0"
              (Q.mkWorld (Q.mkDb [] []) None) two_plus_two "banana"
              eq_refl eq_refl eq_refl) as [_ Hw].
  split; [reflexivity|exact Hw].
Defined.

(** On the last question the index does not move on by one and the score
    does not stay: after "def" (score 1) and then "banana" on the second of
    the two questions of [quiz_app.py], the attempt is saved with score 1 and
    the session keys are back at zero. *)
Lemma C7_last_question_counterexample :
  mem "banana" ["list"; "dict"; "set"; "tuple"] = false /\
  Q.st (Q.submit_all QuizApp.QUESTIONS "ann" "py" "t0" [Some "def"]
                     (Q.mkWorld (Q.mkDb [] []) None))
    = Some (Q.mkSession 1 1
        [Q.mkAnswer "Which keyword is used to define a function in Python?"
                    (Some "def") "def" true]) /\
  Q.submit_answer QuizApp.QUESTIONS "ann" "py" "t0" (Some "banana")
    (Q.submit_all QuizApp.QUESTIONS "ann" "py" "t0" [Some "def"]
                  (Q.mkWorld (Q.mkDb [] []) None))
  = (Q.mkWorld
       (Q.mkDb []
          [Q.mkAttempt "ann" "PY" 1 2
             [Q.mkAnswer "Which keyword is used to define a function in Python?"
                         (Some "def") "def" true;
              Q.mkAnswer "Which data type is immutable?"
                         (Some "banana") "tuple" false] "t0"])
       (Some (Q.mkSession 0 0 [])),
     [Q.QuestionShown 2 2
        (mkQuestion "Which data type is immutable?"
                    ["list"; "dict"; "set"; "tuple"] "tuple" 1);
      Q.QuizFinished 1],
     ScriptEnd) /\
  ~ (Q.index (Q.session_of (Q.st (fst (fst
       (Q.submit_answer QuizApp.QUESTIONS "ann" "py" "t0" (Some "banana")
          (Q.submit_all QuizApp.QUESTIONS "ann" "py" "t0" [Some "def"]
                        (Q.mkWorld (Q.mkDb [] []) None)))))))
     = (1 + 1)%nat) /\
  ~ (Q.score (Q.session_of (Q.st (fst (fst
       (Q.submit_answer QuizApp.QUESTIONS "ann" "py" "t0" (Some "banana")
          (Q.submit_all QuizApp.QUESTIONS "ann" "py" "t0" [Some "def"]
                        (Q.mkWorld (Q.mkDb [] []) None)))))))
     = 1%Z).
Proof.
  repeat split; try reflexivity; vm_compute; discriminate.
Qed.

(** ** The question list during a session *)

Lemma student_quiz_keeps_bank (qs : list Question) (username course now : string)
    (choice : option string) (submit : bool) (w : Q.world) :
  Q.questions (Q.db (fst (fst
    (Q.student_quiz qs username course now choice submit w))))
  = Q.questions (Q.db w).
Proof.
  unfold Q.student_quiz. destruct qs as [|q0 l]; [reflexivity|].
  destruct (nth_error _ _); [|reflexivity].
  destruct submit; [|reflexivity].
  destruct (_ <? _)%nat; reflexivity.
Qed.

Lemma student_panel_keeps_bank (username course now : string)
    (choice : option string) (submit : bool) (w : Q.world) :
  Q.questions (Q.db (fst (fst
    (Q.student_panel username course now choice submit w))))
  = Q.questions (Q.db w).
Proof.
  unfold Q.student_panel. destruct (String.eqb course ""); [reflexivity|].
  apply student_quiz_keeps_bank.
Qed.

Lemma get_questions_same_bank (course : string) (d d' : Q.database) :
  Q.questions d = Q.questions d' ->
  Q.get_questions course d = Q.get_questions course d'.
Proof. unfold Q.get_questions. now intros ->. Qed.

Lemma panel_submit_fixed_list (username course now : string)
    (c : option string) (w : Q.world) :
  String.eqb course "" = false ->
  Q.panel_submit username course now c w =
  Q.submit_answer (Q.get_questions course (Q.db w)) username course now c w.
Proof.
  intros Hc. unfold Q.panel_submit, Q.submit_answer, Q.student_panel.
  rewrite Hc.
  assert (Hk := student_quiz_keeps_bank (Q.get_questions course (Q.db w))
                  username course now c true w).
  destruct (Q.student_quiz (Q.get_questions course (Q.db w))
              username course now c true w) as [[w1 out] e].
  cbn [fst] in Hk.
  destruct e; try reflexivity.
  now rewrite (get_questions_same_bank course _ _ Hk).
Qed.

(** C8, as the code has it.  An execution of the student panel writes
    nothing to the question collection, so as long as nobody edits the bank
    and the course code typed stays the same, a session presents and scores
    the list it found at its start: any sequence of presses on the panel
    under one course code does what the same presses do on that fixed list.
    The list is not kept, though: every execution queries the bank again,
    for the course code typed at that moment. *)
Theorem C8_question_list_requeried (username course now : string)
    (choice : option string) (submit : bool)
    (cs : list (option string)) (w : Q.world) :
  String.eqb course "" = false ->
  Q.questions (Q.db (fst (fst
    (Q.student_panel username course now choice submit w))))
    = Q.questions (Q.db w) /\
  Q.student_panel username course now choice submit w
    = Q.student_quiz (Q.get_questions course (Q.db w))
                     username course now choice submit w /\
  Q.panel_submit_all username course now cs w
    = Q.submit_all (Q.get_questions course (Q.db w)) username course now cs w.
Proof.
  intros Hc. split; [apply student_panel_keeps_bank|]. split.
  - unfold Q.student_panel. now rewrite Hc.
  - revert w. induction cs as [|c cs IH]; intros w; [reflexivity|].
    cbn [Q.panel_submit_all Q.submit_all].
    rewrite panel_submit_fixed_list by assumption. rewrite IH.
    f_equal. apply get_questions_same_bank.
    unfold Q.submit_answer.
    assert (Hk := student_quiz_keeps_bank (Q.get_questions course (Q.db w))
                    username course now c true w).
    destruct (Q.student_quiz (Q.get_questions course (Q.db w))
                username course now c true w) as [[w1 out] e].
    cbn [fst] in Hk.
    destruct e; cbn [fst]; try exact Hk.
    assert (Hk2 := student_quiz_keeps_bank (Q.get_questions course (Q.db w))
                     username course now c false w1).
    destruct (Q.student_quiz (Q.get_questions course (Q.db w))
                username course now c false w1) as [[w2 out2] e2].
    cbn [fst] in *. congruence.
Qed.

Lemma C8_question_list_requeried_witness :
  Q.panel_submit_all "ann" "cs101" "t0" [Some "4"] small_bank
    = Q.submit_all [two_plus_two] "ann" "cs101" "t0" [Some "4"] small_bank.
Proof.
  destruct (C8_question_list_requeried "ann" "cs101" "t0" None false
              [Some "4"] small_bank eq_refl) as (_ & _ & H).
  exact H.
Defined.

(** An edit of the bank reaches a session in flight.  The student opens
    course cs101, which has one question, and sees "Question 1/1".  Left
    alone, the answer "4" completes the quiz and saves the attempt.  If the
    teacher adds a question before the student presses the button, the same
    press completes nothing: the list has two questions now and the session
    goes on to the new one. *)
Lemma C8_bank_edit_counterexample :
  Q.student_panel "ann" "cs101" "t0" (Some "3") false small_bank
    = (Q.mkWorld (Q.db small_bank) (Some (Q.mkSession 0 0 [])),
       [Q.QuestionShown 1 1 two_plus_two], ScriptEnd) /\
  Q.panel_submit "ann" "cs101" "t1" (Some "4")
      (Q.mkWorld (Q.db small_bank) (Some (Q.mkSession 0 0 [])))
    = (Q.mkWorld
         (Q.mkDb (Q.questions (Q.db small_bank))
            [Q.mkAttempt "ann" "CS101" 1 1
               [Q.mkAnswer "2+2?" (Some "4") "4" true] "t1"])
         (Some (Q.mkSession 0 0 [])),
       [Q.QuestionShown 1 1 two_plus_two; Q.QuizFinished 1], ScriptEnd) /\
  Q.panel_submit "ann" "cs101" "t1" (Some "4")
      (teacher_adds (Q.mkWorld (Q.db small_bank) (Some (Q.mkSession 0 0 []))))
    = (Q.mkWorld
         (Q.db (teacher_adds small_bank))
         (Some (Q.mkSession 1 1 [Q.mkAnswer "2+2?" (Some "4") "4" true])),
       [Q.QuestionShown 1 2 two_plus_two;
        Q.QuestionShown 2 2 (mkQuestion "3*3?" ["6"; "9"] "9" 2)], ScriptEnd) /\
  ~ (snd (fst (Q.panel_submit "ann" "cs101" "t1" (Some "4")
        (teacher_adds (Q.mkWorld (Q.db small_bank) (Some (Q.mkSession 0 0 []))))))
     = snd (fst (Q.panel_submit "ann" "cs101" "t1" (Some "4")
        (Q.mkWorld (Q.db small_bank) (Some (Q.mkSession 0 0 [])))))).
Proof.
  repeat split; try reflexivity. vm_compute. discriminate.
Qed.

(** The list follows the course code, too: with the bank left alone, a
    student who answers the first question of course "a" (10 marks) and
    then types course "b" is asked the second question of "b", and the
    attempt saved under "B" carries 11 points of 2. *)
Example course_retyped_mid_session :
  Q.attempts (Q.db (fst (fst
    (Q.panel_submit "ann" "b" "t1" (Some "y")
       (fst (fst
          (Q.panel_submit "ann" "a" "t0" (Some "u")
             (Q.mkWorld
                (Q.add_question "b" "q4" ["x"; "y"] "y" 1
                   (Q.add_question "b" "q3" ["x"; "y"] "x" 1
                      (Q.add_question "a" "q2" ["u"; "v"] "v" 1
                         (Q.add_question "a" "q1" ["u"; "v"] "u" 10
                            (Q.mkDb [] [])))))
                None))))))))
  = [Q.mkAttempt "ann" "B" 11 2
       [Q.mkAnswer "q1" (Some "u") "u" true;
        Q.mkAnswer "q4" (Some "y") "y" true] "t1"].
Proof. reflexivity. Qed.

(** ** The two flows agree *)

Lemma new_attempts_none (w w' : Q.world) :
  Q.attempts (Q.db w') = Q.attempts (Q.db w) -> Q.new_attempts w w' = [].
Proof. unfold Q.new_attempts. intros ->. apply skipn_all. Qed.

Lemma new_attempts_saved (w : Q.world) (username course now : string)
    (sc mx : Z) (dt : list Q.AnswerRecord) (ss : Q.session_state) :
  Q.new_attempts w
    (Q.mkWorld (Q.save_attempt username course sc mx dt now (Q.db w)) ss)
  = [Q.mkAttempt username (upper course) sc mx dt now].
Proof.
  unfold Q.new_attempts, Q.save_attempt. cbn [Q.db Q.attempts].
  rewrite skipn_app, skipn_all, Nat.sub_diag. reflexivity.
Qed.

(** A press with the index out of range raises before anything is
    written. *)
Lemma q_submit_out_of_range (qs : list Question) (username course now : string)
    (c : option string) (w : Q.world) :
  nth_error qs (Q.index (Q.session_of (Q.st w))) = None ->
  Q.attempts (Q.db (fst (fst (Q.submit_answer qs username course now c w))))
    = Q.attempts (Q.db w) /\
  Q.session_of (Q.st (fst (fst (Q.submit_answer qs username course now c w))))
    = Q.session_of (Q.st w).
Proof.
  intros Hq. unfold Q.submit_answer, Q.student_quiz.
  destruct qs as [|q0 l] eqn:Eqs; [split; reflexivity|]. rewrite <- Eqs in *.
  fold (Q.session_of (Q.st w)). rewrite Hq. split; reflexivity.
Qed.

Lemma inline_submit_out_of_range (qs : list Question) (c : option string)
    (s : QuizApp.session) :
  QuizApp.finished s = false ->
  nth_error qs (QuizApp.current s) = None ->
  QuizApp.submit_answer qs c s = (s, [], IndexErrorRaised).
Proof.
  intros Hf Hq. unfold QuizApp.submit_answer, QuizApp.app.
  now rewrite Hf, Hq.
Qed.

Lemma verdicts_of_inner (qs : list Question) (q : Question) (c : string)
    (s : QuizApp.session) (i n : nat) :
  verdicts_of
    ([QuizApp.QuestionShown i n q; snd (QuizApp.mark_answer q c s)] ++
     match nth_error qs (QuizApp.current s + 1) with
     | Some q' => [QuizApp.QuestionShown (QuizApp.current s + 1 + 1) (length qs) q']
     | None => []
     end)
  = [String.eqb c (answer q)].
Proof.
  unfold QuizApp.mark_answer.
  destruct (String.eqb c (answer q)), (nth_error qs (QuizApp.current s + 1));
    reflexivity.
Qed.

Lemma verdicts_of_last (q : Question) (c : string) (s : QuizApp.session)
    (i n : nat) (sc tot : Z) :
  verdicts_of [QuizApp.QuestionShown i n q; snd (QuizApp.mark_answer q c s);
               QuizApp.QuizFinished sc tot]
  = [String.eqb c (answer q)].
Proof.
  unfold QuizApp.mark_answer. destruct (String.eqb c (answer q)); reflexivity.
Qed.

(** Played from matching states, the two flows yield the same outcome. *)
Lemma play_agree (qs : list Question) (username course now : string)
    (cs : list string) :
  forall (w : Q.world) (s : QuizApp.session) (vs : list bool) (n : nat),
  QuizApp.finished s = false ->
  Q.index (Q.session_of (Q.st w)) = QuizApp.current s ->
  Q.score (Q.session_of (Q.st w)) = QuizApp.score s ->
  map Q.is_correct (Q.answers (Q.session_of (Q.st w))) = vs ->
  db_play qs username course now (map Some cs) n w
  = inline_play qs (map Some cs) vs n s.
Proof.
  induction cs as [|c cs IH]; intros w s vs n Hf Hi Hsc Hvs; [reflexivity|].
  cbn [map db_play inline_play].
  destruct (nth_error qs (QuizApp.current s)) as [q|] eqn:Hq.
  - assert (Hq' : nth_error qs (Q.index (Q.session_of (Q.st w))) = Some q)
      by now rewrite Hi.
    assert (Hlt : (QuizApp.current s < length qs)%nat)
      by (apply nth_error_Some; congruence).
    destruct (Nat.eq_dec (QuizApp.current s + 1) (length qs)) as [Hlast|Hin].
    + rewrite (q_submit_last qs username course now (Some c) w q Hq'
                 ltac:(lia)).
      rewrite (inline_submit_last qs c s q Hf Hq Hlast).
      cbn [fst QuizApp.finished QuizApp.score].
      rewrite new_attempts_saved, verdicts_of_last.
      cbn [Q.att_score Q.details Q.record_answer Q.score Q.answers].
      rewrite mark_answer_score, map_app, Hvs, Hsc.
      reflexivity.
    + rewrite (q_submit_inner qs username course now (Some c) w q Hq'
                 ltac:(lia)).
      rewrite (inline_submit_inner qs c s q Hf Hq ltac:(lia)).
      cbn [fst QuizApp.finished]. rewrite verdicts_of_inner.
      rewrite new_attempts_none by reflexivity.
      apply IH; cbn [Q.st Q.session_of Q.index Q.score Q.answers
                     QuizApp.finished QuizApp.current QuizApp.score
                     Q.record_answer].
      * reflexivity.
      * now rewrite Hi.
      * now rewrite mark_answer_score, Hsc.
      * now rewrite map_app, Hvs.
  - assert (Hq' : nth_error qs (Q.index (Q.session_of (Q.st w))) = None)
      by now rewrite Hi.
    destruct (q_submit_out_of_range qs username course now (Some c) w Hq')
      as [Hatt Hst].
    rewrite (inline_submit_out_of_range qs (Some c) s Hf Hq).
    rewrite new_attempts_none by exact Hatt.
    rewrite Hf. cbn [verdicts_of]. rewrite app_nil_r.
    apply IH; try assumption; now rewrite Hst.
Qed.

(** Played to the end, the inline flow completes on the last answer. *)
Lemma inline_play_complete (qs : list Question) (cs : list string) :
  forall (s : QuizApp.session) (vs : list bool) (n : nat),
  cs <> [] ->
  QuizApp.finished s = false ->
  (QuizApp.current s + length cs = length qs)%nat ->
  inline_play qs (map Some cs) vs n s =
  Some (mkOutcome
          (QuizApp.score s +
           sum_marks (answered_correctly (skipn (QuizApp.current s) qs)
                                         (map Some cs)))
          (vs ++ map (fun qc => String.eqb (snd qc) (answer (fst qc)))
                     (combine (skipn (QuizApp.current s) qs) cs))
          (n + length cs)).
Proof.
  induction cs as [|c cs IH]; intros s vs n Hne Hf Hlen; [congruence|].
  simpl in Hlen.
  destruct (nth_error_in_range qs (QuizApp.current s)) as [q Hq]; [lia|].
  rewrite (skipn_nth_error _ _ _ Hq).
  cbn [map inline_play combine fst snd length]. rewrite answered_correctly_cons.
  destruct cs as [|c' cs'].
  - simpl in Hlen.
    rewrite (inline_submit_last qs c s q Hf Hq ltac:(lia)).
    cbn [QuizApp.finished QuizApp.score]. rewrite verdicts_of_last.
    rewrite mark_answer_score.
    unfold answered_correctly. rewrite !combine_nil. cbn [map filter choice_eq].
    do 2 f_equal; [|simpl; lia].
    destruct (String.eqb c (answer q)); unfold sum_marks; simpl; lia.
  - rewrite (inline_submit_inner qs c s q Hf Hq ltac:(simpl in Hlen; lia)).
    cbn [QuizApp.finished]. rewrite verdicts_of_inner.
    rewrite IH; [|discriminate|reflexivity|cbn; simpl in Hlen; lia].
    cbn [QuizApp.current QuizApp.score].
    rewrite Nat.add_1_r, mark_answer_score, <- app_assoc.
    do 2 f_equal; [|simpl; lia].
    destruct (choice_eq (Some c) (answer q)); [rewrite sum_marks_cons|]; lia.
Qed.

(** C9. On every non-empty question list and every sequence of answer
    strings, one per question, the database-backed flow and the inline flow,
    each started fresh, yield the same outcome: the same final score, the
    same verdict on each answer, and completion at the same press, which is
    the last. *)
Theorem C9_flows_agree (qs : list Question) (cs : list string)
    (username course now : string) (d : Q.database) :
  qs <> [] ->
  length cs = length qs ->
  db_play qs username course now (map Some cs) 0 (Q.mkWorld d None)
    = inline_play qs (map Some cs) [] 0 QuizApp.initial /\
  inline_play qs (map Some cs) [] 0 QuizApp.initial
    = Some (mkOutcome
              (sum_marks (answered_correctly qs (map Some cs)))
              (map (fun qc => String.eqb (snd qc) (answer (fst qc)))
                   (combine qs cs))
              (length qs)).
Proof.
  intros Hne Hlen. split.
  - apply play_agree; reflexivity.
  - assert (Hcs : cs <> []) by (destruct cs, qs; simpl in *; congruence).
    rewrite inline_play_complete; [|assumption|reflexivity|simpl; lia].
    simpl. now rewrite Hlen.
Qed.

Lemma C9_flows_agree_witness :
  db_play three_questions "ann" "cs101" "t0" (map Some ["4"; "6"; "2"]) 0
          (Q.mkWorld (Q.mkDb [] []) None)
    = inline_play three_questions (map Some ["4"; "6"; "2"]) [] 0 QuizApp.initial /\
  inline_play three_questions (map Some ["4"; "6"; "2"]) [] 0 QuizApp.initial
    = Some (mkOutcome 2 [true; false; true] 3).
Proof.
  exact (C9_flows_agree three_questions ["4"; "6"; "2"] "ann" "cs101" "t0"
           (Q.mkDb [] []) ltac:(discriminate) eq_refl).
Defined.

(** The agreement does not depend on the length of the sequence: too few
    answers complete neither flow, and both stop at the first completion. *)
Lemma flows_agree_any_length (qs : list Question) (cs : list string)
    (username course now : string) (d : Q.database) :
  db_play qs username course now (map Some cs) 0 (Q.mkWorld d None)
  = inline_play qs (map Some cs) [] 0 QuizApp.initial.
Proof. apply play_agree; reflexivity. Qed.

(** The flows part ways when nothing is selected: [q.py] logs a wrong answer
    and moves on, [quiz_app.py] waits. *)
Example flows_differ_on_no_selection :
  db_play [two_plus_two] "ann" "cs101" "t0" [None] 0 (Q.mkWorld (Q.mkDb [] []) None)
    = Some (mkOutcome 0 [false] 1) /\
  inline_play [two_plus_two] [None] [] 0 QuizApp.initial = None.
Proof. split; reflexivity. Qed.

(** ** Worked scenarios *)

(** One question, answered right: score 1 of 1, in both flows. *)
Example scenario_single_right :
  Q.attempts (Q.db (Q.submit_all [two_plus_two] "ann" "cs101" "t0" [Some "4"]
                                 (Q.mkWorld (Q.mkDb [] []) None)))
    = [Q.mkAttempt "ann" "CS101" 1 1
         [Q.mkAnswer "2+2?" (Some "4") "4" true] "t0"] /\
  QuizApp.submit_all [two_plus_two] [Some "4"] QuizApp.initial
    = QuizApp.mkSession 0 1 true.
Proof. split; reflexivity. Qed.

(** One question, answered wrong: score 0 and a record marked incorrect. *)
Example scenario_single_wrong :
  Q.attempts (Q.db (Q.submit_all [two_plus_two] "ann" "cs101" "t0" [Some "3"]
                                 (Q.mkWorld (Q.mkDb [] []) None)))
    = [Q.mkAttempt "ann" "CS101" 0 1
         [Q.mkAnswer "2+2?" (Some "3") "4" false] "t0"] /\
  QuizApp.submit_all [two_plus_two] [Some "3"] QuizApp.initial
    = QuizApp.mkSession 0 0 true.
Proof. split; reflexivity. Qed.

(** The script of [quiz_app.py] on its own two questions. *)
Example scenario_inline_script :
  QuizApp.quiz_app QuizApp.SubmitAnswer (Some "def") QuizApp.initial
    = (QuizApp.mkSession 1 1 false,
       [QuizApp.QuestionShown 1 2
          (mkQuestion "Which keyword is used to define a function in Python?"
                      ["func"; "def"; "function"; "lambda"] "def" 1);
        QuizApp.Correct], RerunRequested) /\
  QuizApp.quiz_app QuizApp.SubmitAnswer (Some "list") (QuizApp.mkSession 1 1 false)
    = (QuizApp.mkSession 1 1 true,
       [QuizApp.QuestionShown 2 2
          (mkQuestion "Which data type is immutable?"
                      ["list"; "dict"; "set"; "tuple"] "tuple" 1);
        QuizApp.Wrong "tuple"], RerunRequested) /\
  QuizApp.quiz_app QuizApp.RestartQuiz None (QuizApp.mkSession 1 1 true)
    = (QuizApp.initial,
       [QuizApp.QuestionShown 1 2
          (mkQuestion "Which keyword is used to define a function in Python?"
                      ["func"; "def"; "function"; "lambda"] "def" 1)],
       ScriptEnd).
Proof. repeat split. Qed.

(** * Further properties of [q/q.py] and [quiz_app.py] *)

(** ** Accounts *)

Section AccountFacts.
Variables (SALT : string) (sha256_hexdigest : string -> string).

Lemma find_one_none (name : string) (users : list Accounts.user_doc) :
  Accounts.find_one name users = None <->
  ~ In name (map Accounts.username users).
Proof.
  unfold Accounts.find_one. induction users as [|u us IH]; simpl.
  - tauto.
  - destruct (String.eqb (Accounts.username u) name) eqn:E.
    + apply String.eqb_eq in E. split; [discriminate|]. intros H. tauto.
    + apply String.eqb_neq in E. rewrite IH. tauto.
Qed.

Lemma find_one_some (name : string) (users : list Accounts.user_doc)
    (u : Accounts.user_doc) :
  Accounts.find_one name users = Some u ->
  In u users /\ Accounts.username u = name.
Proof.
  unfold Accounts.find_one. intros H. apply find_some in H.
  destruct H as [Hin Heq]. apply String.eqb_eq in Heq. now split.
Qed.

Lemma find_one_app_some (name : string) (us vs : list Accounts.user_doc)
    (u : Accounts.user_doc) :
  Accounts.find_one name us = Some u ->
  Accounts.find_one name (us ++ vs) = Some u.
Proof.
  unfold Accounts.find_one. induction us as [|x us IH]; simpl; [discriminate|].
  destruct (String.eqb (Accounts.username x) name); auto.
Qed.

Lemma find_one_app_none (name : string) (us vs : list Accounts.user_doc) :
  Accounts.find_one name us = None ->
  Accounts.find_one name (us ++ vs) = Accounts.find_one name vs.
Proof.
  unfold Accounts.find_one. induction us as [|x us IH]; simpl; [reflexivity|].
  destruct (String.eqb (Accounts.username x) name); [discriminate|auto].
Qed.

(** X1. A name that is already taken is refused: [create_user] returns
    [False] with its message and leaves the collection as it was, whatever
    the password and role. *)
Theorem create_user_taken (name password rl : string)
    (users : list Accounts.user_doc) :
  In name (map Accounts.username users) ->
  Accounts.create_user SALT sha256_hexdigest name password rl users
  = (users, (false, "Username already exists.")).
Proof.
  intros Hin. unfold Accounts.create_user.
  destruct (Accounts.find_one name users) eqn:E; [reflexivity|].
  apply find_one_none in E. contradiction.
Qed.

(** X2. After a successful signup the same name and password log in, and
    the login returns the name and the role given at signup. *)
Theorem create_then_authenticate (name password rl : string)
    (users : list Accounts.user_doc) :
  ~ In name (map Accounts.username users) ->
  snd (Accounts.create_user SALT sha256_hexdigest name password rl users)
    = (true, "User created successfully.") /\
  Accounts.authenticate SALT sha256_hexdigest name password
    (fst (Accounts.create_user SALT sha256_hexdigest name password rl users))
    = Some (name, rl).
Proof.
  intros Hnew. apply find_one_none in Hnew.
  unfold Accounts.create_user, Accounts.authenticate. rewrite Hnew.
  cbn [fst snd]. split; [reflexivity|].
  rewrite (find_one_app_none _ _ _ Hnew).
  unfold Accounts.find_one. cbn [find Accounts.username].
  rewrite String.eqb_refl. cbn [Accounts.password_hash].
  now rewrite String.eqb_refl.
Qed.

(** X3. Signups keep the names of the collection pairwise different. *)
Theorem create_user_keeps_names_unique (name password rl : string)
    (users : list Accounts.user_doc) :
  NoDup (map Accounts.username users) ->
  NoDup (map Accounts.username
           (fst (Accounts.create_user SALT sha256_hexdigest
                                      name password rl users))).
Proof.
  intros Hnd. unfold Accounts.create_user.
  destruct (Accounts.find_one name users) eqn:E; cbn [fst]; [assumption|].
  apply find_one_none in E.
  rewrite map_app. cbn [map Accounts.username].
  apply NoDup_app; [assumption|constructor; [simpl; tauto|constructor]|].
  intros x Hx [Hx'|[]]. subst x. contradiction.
Qed.

(** X4. A signup, accepted or refused, takes nothing away from the accounts
    there are: a login that succeeded before succeeds after it, with the
    same result. *)
Theorem create_user_keeps_logins (name password rl n p : string)
    (users : list Accounts.user_doc) (r : string * string) :
  Accounts.authenticate SALT sha256_hexdigest n p users = Some r ->
  Accounts.authenticate SALT sha256_hexdigest n p
    (fst (Accounts.create_user SALT sha256_hexdigest name password rl users))
    = Some r.
Proof.
  intros Hok. unfold Accounts.create_user.
  destruct (Accounts.find_one name users); cbn [fst]; [assumption|].
  unfold Accounts.authenticate in *.
  destruct (Accounts.find_one n users) as [u|] eqn:E; [|discriminate].
  now rewrite (find_one_app_some _ _ _ _ E).
Qed.

(** X5. A login succeeds only against a stored document: the result carries
    the name asked for and the role of a document of that name whose stored
    hash is the hash of the salt followed by the password. *)
Theorem authenticate_sound (n p : string) (users : list Accounts.user_doc)
    (r : string * string) :
  Accounts.authenticate SALT sha256_hexdigest n p users = Some r ->
  fst r = n /\
  exists u : Accounts.user_doc,
    In u users /\ Accounts.username u = n /\ Accounts.role u = snd r /\
    Accounts.password_hash u = sha256_hexdigest (SALT ++ p)%string.
Proof.
  unfold Accounts.authenticate, Accounts.hash_password.
  destruct (Accounts.find_one n users) as [u|] eqn:E; [|discriminate].
  destruct (String.eqb _ _) eqn:Eh; [|discriminate].
  intros H. inversion H; subst r. clear H.
  apply find_one_some in E. destruct E as [Hin Hn].
  apply String.eqb_eq in Eh. cbn [fst snd]. split; [assumption|].
  exists u. repeat split; assumption.
Qed.

End AccountFacts.

Lemma create_user_taken_witness :
  Accounts.create_user "s" (fun x => x) "ann" "pw2" "teacher"
    [Accounts.mkUser "ann" "spw" "student"]
  = ([Accounts.mkUser "ann" "spw" "student"],
     (false, "Username already exists.")).
Proof.
  apply (create_user_taken "s" (fun x => x) "ann" "pw2" "teacher"
           [Accounts.mkUser "ann" "spw" "student"]).
  simpl. auto.
Defined.

Lemma create_then_authenticate_witness :
  Accounts.authenticate "s" (fun x => x) "bob" "pw"
    (fst (Accounts.create_user "s" (fun x => x) "bob" "pw" "teacher"
            [Accounts.mkUser "ann" "spw" "student"]))
  = Some ("bob", "teacher").
Proof.
  apply (create_then_authenticate "s" (fun x => x) "bob" "pw" "teacher"
           [Accounts.mkUser "ann" "spw" "student"]).
  simpl. intros [H|[]]. discriminate.
Defined.

Lemma create_user_keeps_names_unique_witness :
  NoDup (map Accounts.username
           (fst (Accounts.create_user "s" (fun x => x) "bob" "pw" "teacher"
                   [Accounts.mkUser "ann" "spw" "student"]))).
Proof.
  apply (create_user_keeps_names_unique "s" (fun x => x) "bob" "pw" "teacher"
           [Accounts.mkUser "ann" "spw" "student"]).
  simpl. constructor; [simpl; tauto|constructor].
Defined.

Lemma create_user_keeps_logins_witness :
  Accounts.authenticate "s" (fun x => x) "ann" "pw"
    (fst (Accounts.create_user "s" (fun x => x) "bob" "pw" "teacher"
            [Accounts.mkUser "ann" "spw" "student"]))
  = Some ("ann", "student").
Proof.
  apply (create_user_keeps_logins "s" (fun x => x) "bob" "pw" "teacher"
           "ann" "pw" [Accounts.mkUser "ann" "spw" "student"]).
  reflexivity.
Defined.

Lemma authenticate_sound_witness :
  fst ("ann", "student") = "ann" /\
  exists u : Accounts.user_doc,
    In u [Accounts.mkUser "ann" "spw" "student"] /\
    Accounts.username u = "ann" /\ Accounts.role u = snd ("ann", "student") /\
    Accounts.password_hash u = (fun x : string => x) ("s" ++ "pw")%string.
Proof.
  apply (authenticate_sound "s" (fun x => x) "ann" "pw"
           [Accounts.mkUser "ann" "spw" "student"] ("ann", "student")).
  reflexivity.
Defined.

(** ** The options field of the teacher's forms *)

Lemma lstrip_head (s : string) :
  Teacher.lstrip s = EmptyString \/
  exists c r, Teacher.lstrip s = String c r /\ Teacher.is_space c = false.
Proof.
  induction s as [|c s IH]; simpl; [now left|].
  destruct (Teacher.is_space c) eqn:E; [exact IH|].
  right. now exists c, s.
Qed.

Lemma rstrip_idem (s : string) :
  Teacher.rstrip (Teacher.rstrip s) = Teacher.rstrip s.
Proof.
  induction s as [|c s IH]; simpl; [reflexivity|].
  destruct (Teacher.rstrip s) as [|c' r] eqn:E.
  - destruct (Teacher.is_space c) eqn:Ec; simpl; [reflexivity|].
    now rewrite Ec.
  - change (Teacher.rstrip (String c (String c' r))) with
      (match Teacher.rstrip (String c' r) with
       | EmptyString =>
         if Teacher.is_space c then EmptyString else String c EmptyString
       | x => String c x
       end).
    now rewrite IH.
Qed.

Lemma rstrip_keeps_head (c : ascii) (s : string) :
  Teacher.is_space c = false ->
  exists r, Teacher.rstrip (String c s) = String c r.
Proof.
  intros Hc. simpl. destruct (Teacher.rstrip s) as [|c' r].
  - rewrite Hc. now exists EmptyString.
  - now exists (String c' r).
Qed.

Lemma lstrip_strip (s : string) :
  Teacher.lstrip (Teacher.strip s) = Teacher.strip s.
Proof.
  unfold Teacher.strip.
  destruct (lstrip_head s) as [-> | (c & r & -> & Hc)]; [reflexivity|].
  destruct (rstrip_keeps_head c r Hc) as [r' ->].
  simpl. now rewrite Hc.
Qed.

Lemma strip_idem (s : string) :
  Teacher.strip (Teacher.strip s) = Teacher.strip s.
Proof.
  unfold Teacher.strip at 1. rewrite lstrip_strip.
  unfold Teacher.strip. apply rstrip_idem.
Qed.

Lemma no_comma_lstrip (s : string) :
  Teacher.no_comma s = true -> Teacher.no_comma (Teacher.lstrip s) = true.
Proof.
  induction s as [|c s IH]; simpl; [reflexivity|].
  intros H. destruct (Teacher.is_space c); [|exact H].
  apply andb_prop in H. now apply IH.
Qed.

Lemma no_comma_rstrip (s : string) :
  Teacher.no_comma s = true -> Teacher.no_comma (Teacher.rstrip s) = true.
Proof.
  induction s as [|c s IH]; simpl; [reflexivity|].
  intros H. apply andb_prop in H. destruct H as [Hc Hs].
  specialize (IH Hs).
  destruct (Teacher.rstrip s) as [|c' r].
  - destruct (Teacher.is_space c); simpl; [reflexivity|].
    now rewrite Hc.
  - cbn [Teacher.no_comma] in *. now rewrite Hc, IH.
Qed.

Lemma no_comma_strip (s : string) :
  Teacher.no_comma s = true -> Teacher.no_comma (Teacher.strip s) = true.
Proof.
  intros H. unfold Teacher.strip. now apply no_comma_rstrip, no_comma_lstrip.
Qed.

Lemma split_pair_no_comma (s : string) :
  Teacher.no_comma (fst (Teacher.split_pair s)) = true /\
  Forall (fun p => Teacher.no_comma p = true) (snd (Teacher.split_pair s)).
Proof.
  induction s as [|c s [IHh IHt]]; simpl; [now split|].
  destruct (Teacher.split_pair s) as [h t]. cbn [fst snd] in *.
  destruct (Teacher.is_comma c) eqn:E; cbn [fst snd].
  - split; [reflexivity|]. now constructor.
  - split; [|assumption]. simpl. now rewrite E, IHh.
Qed.

Lemma split_comma_no_comma (s : string) :
  Forall (fun p => Teacher.no_comma p = true) (Teacher.split_comma s).
Proof.
  unfold Teacher.split_comma.
  destruct (split_pair_no_comma s) as [Hh Ht].
  destruct (Teacher.split_pair s) as [h t]. now constructor.
Qed.

Lemma parse_options_forallb_clean (raw : string) :
  forallb Teacher.clean (Teacher.parse_options raw) = true.
Proof.
  unfold Teacher.parse_options. apply forallb_forall. intros p Hp.
  apply filter_In in Hp. destruct Hp as [Hin Hne].
  apply in_map_iff in Hin. destruct Hin as (x & <- & Hx).
  assert (Hnc := split_comma_no_comma raw).
  rewrite Forall_forall in Hnc. specialize (Hnc x Hx).
  unfold Teacher.clean. rewrite Hne, strip_idem, String.eqb_refl.
  now rewrite no_comma_strip.
Qed.

(** X6. Every option the forms read from the options field is not empty,
    has no blank at either end and holds no comma, whatever was typed. *)
Theorem parse_options_clean (raw p : string) :
  In p (Teacher.parse_options raw) ->
  p <> "" /\ Teacher.strip p = p /\ Teacher.no_comma p = true.
Proof.
  intros Hin.
  assert (H := parse_options_forallb_clean raw).
  rewrite forallb_forall in H. specialize (H p Hin).
  unfold Teacher.clean in H.
  apply andb_prop in H. destruct H as [H Hc].
  apply andb_prop in H. destruct H as [Hn Hs].
  apply String.eqb_eq in Hs. unfold Teacher.nonempty in Hn.
  apply negb_true_iff, String.eqb_neq in Hn. now repeat split.
Qed.

Lemma parse_options_clean_witness :
  "5 or 6" <> "" /\ Teacher.strip "5 or 6" = "5 or 6" /\
  Teacher.no_comma "5 or 6" = true.
Proof.
  apply (parse_options_clean " 3 ,4,, 5 or 6 ," "5 or 6").
  simpl. auto.
Defined.

Lemma append_empty_r (s : string) : (s ++ "")%string = s.
Proof. induction s as [|c s IH]; simpl; [reflexivity|now rewrite IH]. Qed.

Lemma split_pair_app (p s : string) :
  Teacher.no_comma p = true ->
  Teacher.split_pair (p ++ s)%string =
  ((p ++ fst (Teacher.split_pair s))%string, snd (Teacher.split_pair s)).
Proof.
  induction p as [|c p IH]; simpl; intros H.
  - now destruct (Teacher.split_pair s).
  - apply andb_prop in H. destruct H as [Hc Hp].
    rewrite (IH Hp). apply negb_true_iff in Hc. now rewrite Hc.
Qed.

Lemma split_comma_join (rest : list string) :
  forall p : string,
  Teacher.no_comma p = true ->
  Forall (fun x => Teacher.no_comma x = true) rest ->
  Teacher.split_comma (Teacher.join (p :: rest)) =
  p :: map (String " "%char) rest.
Proof.
  induction rest as [|q r IH]; intros p Hp Hrest.
  - unfold Teacher.split_comma. cbn [Teacher.join map].
    rewrite <- (append_empty_r p) at 1.
    rewrite (split_pair_app p "" Hp). simpl. now rewrite append_empty_r.
  - inversion Hrest as [|? ? Hq Hr]; subst.
    specialize (IH q Hq Hr). unfold Teacher.split_comma in *.
    change (Teacher.join (p :: q :: r))
      with (p ++ String ","%char (String " "%char (Teacher.join (q :: r))))%string.
    rewrite (split_pair_app p _ Hp).
    cbn [Teacher.split_pair].
    destruct (Teacher.split_pair (Teacher.join (q :: r))) as [h t].
    inversion IH; subst. cbn [fst snd map]. now rewrite append_empty_r.
Qed.

Lemma clean_parts (p : string) :
  Teacher.clean p = true ->
  Teacher.nonempty p = true /\ Teacher.strip p = p /\
  Teacher.no_comma p = true.
Proof.
  unfold Teacher.clean. intros H.
  apply andb_prop in H. destruct H as [H Hc].
  apply andb_prop in H. destruct H as [Hn Hs].
  apply String.eqb_eq in Hs. now repeat split.
Qed.

Lemma strip_after_space (p : string) :
  Teacher.strip (String " "%char p) = Teacher.strip p.
Proof. reflexivity. Qed.

Lemma parse_spaced (rest : list string) :
  forallb Teacher.clean rest = true ->
  filter Teacher.nonempty
         (map Teacher.strip (map (String " "%char) rest)) = rest.
Proof.
  induction rest as [|q r IH]; simpl; [reflexivity|].
  intros H. apply andb_prop in H. destruct H as [Hq Hr].
  destruct (clean_parts q Hq) as (Hn & Hs & _).
  rewrite strip_after_space, Hs, Hn. now rewrite IH.
Qed.

Lemma parse_join_cons (p : string) (rest : list string) :
  Teacher.clean p = true ->
  forallb Teacher.clean rest = true ->
  Teacher.parse_options (Teacher.join (p :: rest)) = p :: rest.
Proof.
  intros Hp Hrest.
  destruct (clean_parts p Hp) as (Hn & Hs & Hc).
  unfold Teacher.parse_options.
  rewrite split_comma_join; [|assumption|].
  - cbn [map filter]. rewrite Hs, Hn. now rewrite parse_spaced.
  - apply Forall_forall. intros x Hx.
    rewrite forallb_forall in Hrest. now apply clean_parts, Hrest.
Qed.

(** X7. The edit form shows the options of a question joined by ", "; read
    back, that text gives the same options again, provided the options are
    ASCII text and each of them is not empty, has no blank at either end
    and holds no comma. *)
Theorem parse_join_round_trip (opts : list string) :
  forallb ascii_text opts = true ->
  forallb Teacher.clean opts = true ->
  Teacher.parse_options (Teacher.join opts) = opts.
Proof.
  intros _ H. destruct opts as [|p rest]; [reflexivity|].
  cbn [forallb] in H. apply andb_prop in H. destruct H as [Hp Hrest].
  now apply parse_join_cons.
Qed.

Lemma parse_join_round_trip_witness :
  Teacher.parse_options (Teacher.join ["3"; "4 or so"; "5"])
  = ["3"; "4 or so"; "5"].
Proof.
  apply (parse_join_round_trip ["3"; "4 or so"; "5"]); reflexivity.
Defined.

(** What was read from the options field survives a pass through the edit
    form unchanged. *)
Lemma parse_join_parse (raw : string) :
  Teacher.parse_options (Teacher.join (Teacher.parse_options raw))
  = Teacher.parse_options raw.
Proof.
  assert (H := parse_options_forallb_clean raw).
  destruct (Teacher.parse_options raw) as [|p rest]; [reflexivity|].
  cbn [forallb] in H. apply andb_prop in H. destruct H as [Hp Hrest].
  now apply parse_join_cons.
Qed.

Example parse_options_sample :
  Teacher.parse_options " 3 ,4,, 5 or 6 ," = ["3"; "4"; "5 or 6"].
Proof. reflexivity. Qed.

(** An option with a comma in it does not survive the edit form. *)
Example join_parse_splits_commas :
  Teacher.parse_options (Teacher.join ["a,b"]) = ["a"; "b"].
Proof. reflexivity. Qed.

(** ** Adding questions and finding them again *)

Lemma get_questions_app (c : string) (l1 l2 : list Q.question_doc)
    (a : list Q.attempt) :
  Q.get_questions c (Q.mkDb (l1 ++ l2) a) =
  Q.get_questions c (Q.mkDb l1 a) ++ Q.get_questions c (Q.mkDb l2 a).
Proof.
  unfold Q.get_questions. cbn [Q.questions]. now rewrite filter_app, map_app.
Qed.

Lemma get_questions_single (c cc : string) (q : Question) (a : list Q.attempt) :
  Q.get_questions c (Q.mkDb [Q.mkQuestionDoc cc q] a) =
  if String.eqb cc (upper c) then [q] else [].
Proof.
  unfold Q.get_questions. cbn [Q.questions filter Q.course_code].
  destruct (String.eqb cc (upper c)); reflexivity.
Qed.

Lemma get_questions_collection (c : string) (d : Q.database)
    (a : list Q.attempt) :
  Q.get_questions c (Q.mkDb (Q.questions d) a) = Q.get_questions c d.
Proof. reflexivity. Qed.

(** X8. For course codes in ASCII text: a question added under a course
    code is returned by [get_questions], after the questions the course
    already had, for every spelling whose upper-case form is that of the
    code it was added under, and for no other course. *)
Theorem get_after_add (c c' qtext ans : string) (opts : list string) (mk : Z)
    (d : Q.database) :
  ascii_text c = true ->
  ascii_text c' = true ->
  Q.get_questions c (Q.add_question c' qtext opts ans mk d) =
  Q.get_questions c d ++
  (if String.eqb (upper c') (upper c)
   then [mkQuestion qtext opts ans mk] else []).
Proof.
  intros _ _. unfold Q.add_question.
  rewrite get_questions_app, get_questions_single.
  now rewrite get_questions_collection.
Qed.

Lemma get_after_add_witness :
  Q.get_questions "Cs101"
    (Q.add_question "cs101" "2+2?" ["3"; "4"; "5"] "4" 1 (Q.mkDb [] [])) =
  Q.get_questions "Cs101" (Q.mkDb [] []) ++
  (if String.eqb (upper "cs101") (upper "Cs101")
   then [mkQuestion "2+2?" ["3"; "4"; "5"] "4" 1] else []).
Proof.
  apply (get_after_add "Cs101" "cs101" "2+2?" "4" ["3"; "4"; "5"] 1
           (Q.mkDb [] [])); reflexivity.
Defined.

Lemma upper_ascii_idem (c : ascii) :
  upper_ascii (upper_ascii c) = upper_ascii c.
Proof.
  destruct c as [[] [] [] [] [] [] [] []]; reflexivity.
Qed.

Lemma upper_idem (s : string) : upper (upper s) = upper s.
Proof.
  induction s as [|c s IH]; simpl; [reflexivity|].
  now rewrite upper_ascii_idem, IH.
Qed.

(** X9. Course codes are compared in upper case and stored in upper case:
    looking a course up by its upper-cased code gives what the code itself
    gives, and a question is found under the very code [add_question]
    stored for it. *)
Theorem course_lookup_normal_form (c qtext ans : string) (opts : list string)
    (mk : Z) (d : Q.database) :
  Q.get_questions (upper c) d = Q.get_questions c d /\
  Q.get_questions (upper c) (Q.add_question c qtext opts ans mk d) =
  Q.get_questions c d ++ [mkQuestion qtext opts ans mk].
Proof.
  assert (H : Q.get_questions (upper c) d = Q.get_questions c d).
  { unfold Q.get_questions. now rewrite upper_idem. }
  split; [exact H|].
  unfold Q.add_question.
  rewrite get_questions_app, get_questions_single, get_questions_collection.
  rewrite upper_idem, String.eqb_refl. now rewrite H.
Qed.

(** Saving an attempt leaves the questions of every course as they were. *)
Lemma get_after_save (c username course now : string) (sc mx : Z)
    (dt : list Q.AnswerRecord) (d : Q.database) :
  Q.get_questions c (Q.save_attempt username course sc mx dt now d)
  = Q.get_questions c d.
Proof. reflexivity. Qed.

(** ** The "Add Question" form *)

Lemma split_pair_blank (raw : string) :
  Teacher.blank raw = true ->
  Teacher.strip (fst (Teacher.split_pair raw)) = EmptyString /\
  Forall (fun p => Teacher.strip p = EmptyString)
         (snd (Teacher.split_pair raw)).
Proof.
  induction raw as [|c s IH]; simpl; intros H; [now split|].
  apply andb_prop in H. destruct H as [Hc Hs].
  destruct (IH Hs) as [IHh IHt]. clear IH.
  destruct (Teacher.split_pair s) as [h t]. cbn [fst snd] in *.
  destruct (Teacher.is_comma c) eqn:E; cbn [fst snd].
  - split; [reflexivity|]. now constructor.
  - split; [|assumption].
    rewrite orb_false_r in Hc. unfold Teacher.strip in *. simpl.
    now rewrite Hc.
Qed.

Lemma parse_options_blank (raw : string) :
  Teacher.blank raw = true -> Teacher.parse_options raw = [].
Proof.
  intros H. destruct (split_pair_blank raw H) as [Hh Ht].
  unfold Teacher.parse_options, Teacher.split_comma.
  destruct (Teacher.split_pair raw) as [h t]. cbn [fst snd map filter] in *.
  rewrite Hh. cbn [Teacher.nonempty String.eqb negb].
  induction t as [|p t IHt]; [reflexivity|].
  inversion Ht as [|? ? Hp Ht']; subst.
  cbn [map filter]. rewrite Hp. cbn [Teacher.nonempty String.eqb negb].
  now apply IHt.
Qed.

(** X10. An options field with nothing but blanks and commas counts as not
    filled in: the press is answered with "Fill all fields" and nothing is
    stored, whatever the other fields hold. *)
Theorem add_question_blank_options (course qtext raw ans : string) (mk : Z)
    (d : Q.database) :
  Teacher.blank raw = true ->
  Teacher.add_question_click course qtext raw ans mk d = (d, Q.FillAllFields).
Proof.
  intros H. unfold Teacher.add_question_click, Q.add_question_handler.
  rewrite (parse_options_blank raw H).
  now rewrite orb_true_r.
Qed.

Lemma add_question_blank_options_witness :
  Teacher.add_question_click "cs101" "2+2?" " , ,, " "4" 1 (Q.mkDb [] [])
  = (Q.mkDb [] [], Q.FillAllFields).
Proof.
  apply (add_question_blank_options "cs101" "2+2?" " , ,, " "4" 1 (Q.mkDb [] [])).
  reflexivity.
Defined.

Lemma add_question_handler_cases (course qtext ans : string)
    (opts : list string) (mk : Z) (d : Q.database) :
  (fst (Q.add_question_handler course qtext opts ans mk d) = d /\
   snd (Q.add_question_handler course qtext opts ans mk d) <> Q.QuestionAdded) \/
  (Q.add_question_handler course qtext opts ans mk d
     = (Q.add_question course qtext opts ans mk d, Q.QuestionAdded) /\
   mem ans opts = true /\
   String.eqb course "" = false /\ String.eqb qtext "" = false /\
   String.eqb ans "" = false).
Proof.
  unfold Q.add_question_handler.
  destruct (String.eqb course "") eqn:Ec; cbn [orb];
    [left; split; [reflexivity|discriminate]|].
  destruct (String.eqb qtext "") eqn:Eq; cbn [orb];
    [left; split; [reflexivity|discriminate]|].
  destruct opts as [|o os]; cbn [orb];
    [left; split; [reflexivity|discriminate]|].
  destruct (String.eqb ans "") eqn:Ea; cbn [orb];
    [left; split; [reflexivity|discriminate]|].
  destruct (mem ans (o :: os)) eqn:Em; cbn [negb];
    [|left; split; [reflexivity|discriminate]].
  right. repeat split; assumption.
Qed.

(** X11. For a course code and an options field in ASCII text: when the
    form answers "Question added", no field was empty, the
    stored question has its answer among its options, its options are the
    cleaned pieces of the options field, and students of that course get
    the question after the ones the course already had; no attempt is
    touched. *)
Theorem add_question_click_added (course qtext raw ans : string) (mk : Z)
    (d : Q.database) :
  ascii_text course = true ->
  ascii_text raw = true ->
  snd (Teacher.add_question_click course qtext raw ans mk d) = Q.QuestionAdded ->
  course <> "" /\ qtext <> "" /\ ans <> "" /\
  Teacher.well_formed (mkQuestion qtext (Teacher.parse_options raw) ans mk) = true /\
  Q.get_questions course (fst (Teacher.add_question_click course qtext raw ans mk d))
    = Q.get_questions course d ++
      [mkQuestion qtext (Teacher.parse_options raw) ans mk] /\
  Q.attempts (fst (Teacher.add_question_click course qtext raw ans mk d))
    = Q.attempts d.
Proof.
  unfold Teacher.add_question_click. intros _ _ Hadded.
  destruct (add_question_handler_cases course qtext ans
              (Teacher.parse_options raw) mk d)
    as [[_ Hno] | (Heq & Hmem & Hc & Hq & Ha)]; [contradiction|].
  rewrite Heq. cbn [fst].
  apply String.eqb_neq in Hc, Hq, Ha.
  repeat split; try assumption.
  - unfold Teacher.well_formed. cbn [answer options].
    now rewrite Hmem, parse_options_forallb_clean.
  - unfold Q.add_question.
    rewrite get_questions_app, get_questions_single, get_questions_collection.
    now rewrite String.eqb_refl.
Qed.

Lemma add_question_click_added_witness :
  Q.get_questions "cs101"
    (fst (Teacher.add_question_click "cs101" "2+2?" "3, 4 ,5" "4" 1 (Q.mkDb [] [])))
  = Q.get_questions "cs101" (Q.mkDb [] []) ++
    [mkQuestion "2+2?" (Teacher.parse_options "3, 4 ,5") "4" 1].
Proof.
  apply (add_question_click_added "cs101" "2+2?" "3, 4 ,5" "4" 1 (Q.mkDb [] []));
    reflexivity.
Defined.

(** X12. The form keeps the bank in order: if every stored question has its
    answer among its options and clean options, the same holds after a
    press of "Add Question", whatever was typed and however the press was
    answered. *)
Theorem add_question_click_keeps_bank (course qtext raw ans : string) (mk : Z)
    (d : Q.database) :
  Teacher.bank_well_formed d ->
  Teacher.bank_well_formed
    (fst (Teacher.add_question_click course qtext raw ans mk d)).
Proof.
  unfold Teacher.add_question_click, Teacher.bank_well_formed. intros Hd.
  destruct (add_question_handler_cases course qtext ans
              (Teacher.parse_options raw) mk d)
    as [[Hsame _] | (Heq & Hmem & _)].
  - now rewrite Hsame.
  - rewrite Heq. cbn [fst Q.add_question Q.questions].
    apply Forall_app. split; [assumption|].
    constructor; [|constructor].
    unfold Teacher.well_formed. cbn [Q.body answer options].
    now rewrite Hmem, parse_options_forallb_clean.
Qed.

Lemma add_question_click_keeps_bank_witness :
  Teacher.bank_well_formed
    (fst (Teacher.add_question_click "cs101" "2+2?" "3, 4 ,5" "4" 1 (Q.mkDb [] []))).
Proof.
  apply (add_question_click_keeps_bank "cs101" "2+2?" "3, 4 ,5" "4" 1 (Q.mkDb [] [])).
  constructor.
Defined.

(** ** Deleting and updating stored questions *)

Section BankFacts.
Variable ObjectId : string -> option string.






Lemma update_one_absent (i : string) (d : Q.question_doc)
    (qs : list Bank.stored) :
  ~ In i (map Bank.doc_id qs) -> Bank.update_one i d qs = qs.
Proof.
  induction qs as [|s qs IH]; simpl; [reflexivity|]. intros H.
  destruct (String.eqb (Bank.doc_id s) i) eqn:E.
  - apply String.eqb_eq in E. tauto.
  - rewrite IH; [reflexivity|tauto].
Qed.

Lemma update_one_unique (i : string) (d : Q.question_doc)
    (qs : list Bank.stored) :
  NoDup (map Bank.doc_id qs) ->
  Bank.update_one i d qs =
  map (fun s => if String.eqb (Bank.doc_id s) i
                then Bank.mkStored (Bank.doc_id s) d else s) qs.
Proof.
  induction qs as [|s qs IH]; simpl; [reflexivity|]. intros Hnd.
  inversion Hnd as [|? ? Hnotin Hnd']; subst.
  destruct (String.eqb (Bank.doc_id s) i) eqn:E.
  - f_equal. apply String.eqb_eq in E. subst i.
    clear IH Hnd Hnd'. induction qs as [|t qs IH]; simpl; [reflexivity|].
    simpl in Hnotin.
    destruct (String.eqb (Bank.doc_id t) (Bank.doc_id s)) eqn:E'.
    + apply String.eqb_eq in E'. tauto.
    + f_equal. apply IH. tauto.
  - now rewrite IH.
Qed.


End BankFacts.

(** ** The edit form *)

Section EditFacts.
Variable ObjectId : string -> option string.

Lemma update_one_Forall (P : Bank.stored -> Prop) (i : string)
    (d : Q.question_doc) (qs : list Bank.stored) :
  (forall j, P (Bank.mkStored j d)) ->
  Forall P qs -> Forall P (Bank.update_one i d qs).
Proof.
  intros Hd. induction 1 as [|s qs Hs Hqs IH]; simpl; [constructor|].
  destruct (String.eqb (Bank.doc_id s) i); constructor; auto.
Qed.

(** X17. "Save Changes" keeps the bank in order: if every stored question
    has its answer among its options and clean options, then so has every
    question after a save that comes to an end, whatever the edit form
    held. *)
Theorem save_changes_keeps_bank (qid ecourse equestion eoptions eanswer : string)
    (emarks : Z) (qs qs' : list Bank.stored) (m : Bank.message) :
  Forall (fun s => Teacher.well_formed (Q.body (Bank.doc s)) = true) qs ->
  Bank.save_changes ObjectId qid ecourse equestion eoptions eanswer emarks qs
    = Some (qs', m) ->
  Forall (fun s => Teacher.well_formed (Q.body (Bank.doc s)) = true) qs'.
Proof.
  intros Hqs. unfold Bank.save_changes, Bank.update_question.
  destruct (mem eanswer (Teacher.parse_options eoptions)) eqn:Em; cbn [negb].
  - destruct (ObjectId qid) as [i|]; [|discriminate].
    intros H. inversion H; subst. clear H.
    apply update_one_Forall; [|assumption].
    intros j. unfold Teacher.well_formed. cbn [Bank.doc Q.body answer options].
    now rewrite Em, parse_options_forallb_clean.
  - intros H. inversion H; subst. assumption.
Qed.

Lemma same_id_same_doc (qs : list Bank.stored) (s t : Bank.stored) :
  NoDup (map Bank.doc_id qs) ->
  In s qs -> In t qs -> Bank.doc_id t = Bank.doc_id s -> t = s.
Proof.
  induction qs as [|x qs IH]; simpl; [tauto|].
  intros Hnd Hs Ht Hid. inversion Hnd as [|? ? Hnotin Hnd']; subst.
  destruct Hs as [Hs|Hs], Ht as [Ht|Ht]; subst.
  - reflexivity.
  - exfalso. apply Hnotin. rewrite <- Hid. now apply in_map.
  - exfalso. apply Hnotin. rewrite Hid. now apply in_map.
  - now apply IH.
Qed.

(** X18. Opening the edit form of a stored question and saving it as it
    was filled in changes no identifier, course code, question text, option
    or answer in the bank and touches no other document: the edited
    question gets the marks of the marks field and is otherwise as it was.
    This holds when identifiers are pairwise different, the question has
    its answer among its options and clean options, its course code is in
    upper case, and course code and options are ASCII text. *)
Theorem save_unchanged_keeps_question (qid : string) (s : Bank.stored)
    (qs : list Bank.stored) (emarks : Z) :
  ObjectId qid = Some (Bank.doc_id s) ->
  In s qs ->
  NoDup (map Bank.doc_id qs) ->
  Teacher.well_formed (Q.body (Bank.doc s)) = true ->
  upper (Q.course_code (Bank.doc s)) = Q.course_code (Bank.doc s) ->
  ascii_text (Q.course_code (Bank.doc s)) = true ->
  forallb ascii_text (options (Q.body (Bank.doc s))) = true ->
  Bank.save_changes ObjectId qid
    (Q.course_code (Bank.doc s))
    (question (Q.body (Bank.doc s)))
    (Teacher.join (options (Q.body (Bank.doc s))))
    (answer (Q.body (Bank.doc s)))
    emarks qs
  = Some (map (fun t =>
                 if String.eqb (Bank.doc_id t) (Bank.doc_id s)
                 then Bank.mkStored (Bank.doc_id s)
                        (Q.mkQuestionDoc (Q.course_code (Bank.doc s))
                           (mkQuestion (question (Q.body (Bank.doc s)))
                                       (options (Q.body (Bank.doc s)))
                                       (answer (Q.body (Bank.doc s)))
                                       emarks))
                 else t) qs,
          Bank.QuestionUpdated).
Proof.
  intros Hid Hin Hnd Hwf Hup _ _.
  unfold Teacher.well_formed in Hwf. apply andb_prop in Hwf.
  destruct Hwf as [Hmem Hclean].
  unfold Bank.save_changes, Bank.update_question.
  assert (Hrt : Teacher.parse_options
                 (Teacher.join (options (Q.body (Bank.doc s))))
               = options (Q.body (Bank.doc s))).
  { destruct (options (Q.body (Bank.doc s))) as [|p rest]; [reflexivity|].
    cbn [forallb] in Hclean. apply andb_prop in Hclean.
    destruct Hclean as [Hp Hrest]. now apply parse_join_cons. }
  rewrite Hrt, Hmem, Hid, Hup. cbn [negb].
  rewrite (update_one_unique _ _ _ Hnd).
  do 2 f_equal. apply map_ext_in. intros t Ht.
  destruct (String.eqb (Bank.doc_id t) (Bank.doc_id s)) eqn:E; [|reflexivity].
  apply String.eqb_eq in E. now rewrite E.
Qed.

End EditFacts.




Lemma save_changes_keeps_bank_witness :
  Forall (fun s => Teacher.well_formed (Q.body (Bank.doc s)) = true)
    [Bank.mkStored "a1"
       (Q.mkQuestionDoc "CS101" (mkQuestion "2+3?" ["5"; "6"] "5" 2))].
Proof.
  apply (save_changes_keeps_bank
           (fun s => if String.eqb s "?" then None else Some s)
           "a1" "cs101" "2+3?" " 5, 6" "5" 2
           [Bank.mkStored "a1" (Q.mkQuestionDoc "CS101" two_plus_two)]
           [Bank.mkStored "a1"
              (Q.mkQuestionDoc "CS101" (mkQuestion "2+3?" ["5"; "6"] "5" 2))]
           Bank.QuestionUpdated).
  - repeat constructor.
  - reflexivity.
Defined.

Lemma save_unchanged_keeps_question_witness :
  Bank.save_changes (fun s => if String.eqb s "?" then None else Some s) "a1"
    "CS101" "2+2?" (Teacher.join ["3"; "4"; "5"]) "4" 3
    [Bank.mkStored "a1" (Q.mkQuestionDoc "CS101" two_plus_two);
     Bank.mkStored "a2" (Q.mkQuestionDoc "CS101" stray_answer)]
  = Some ([Bank.mkStored "a1"
             (Q.mkQuestionDoc "CS101" (mkQuestion "2+2?" ["3"; "4"; "5"] "4" 3));
           Bank.mkStored "a2" (Q.mkQuestionDoc "CS101" stray_answer)],
          Bank.QuestionUpdated).
Proof.
  apply (save_unchanged_keeps_question
           (fun s => if String.eqb s "?" then None else Some s) "a1"
           (Bank.mkStored "a1" (Q.mkQuestionDoc "CS101" two_plus_two))
           [Bank.mkStored "a1" (Q.mkQuestionDoc "CS101" two_plus_two);
            Bank.mkStored "a2" (Q.mkQuestionDoc "CS101" stray_answer)] 3).
  - reflexivity.
  - simpl. auto.
  - simpl. repeat constructor; simpl; intuition discriminate.
  - reflexivity.
  - reflexivity.
  - reflexivity.
  - reflexivity.
Defined.

(** ** Per-question counts of the analytics *)

Lemma lookup_bump (k qtext : string) (ok : bool) (cn : Stats.counts) :
  Stats.lookup k (Stats.bump qtext ok cn) =
  if String.eqb qtext k
  then Some (match Stats.lookup k cn with
             | Some (c, t) => ((if ok then S c else c), S t)
             | None => ((if ok then 1 else 0)%nat, 1%nat)
             end)
  else Stats.lookup k cn.
Proof.
  induction cn as [|[k' [c t]] cn IH]; simpl.
  - destruct (String.eqb qtext k); reflexivity.
  - destruct (String.eqb k' qtext) eqn:E1; simpl.
    + apply String.eqb_eq in E1. subst k'.
      destruct (String.eqb qtext k); reflexivity.
    + destruct (String.eqb k' k) eqn:E2.
      * apply String.eqb_eq in E2. subst k'.
        rewrite String.eqb_sym in E1. now rewrite E1.
      * exact IH.
Qed.

Lemma answered_right_le_asked (k : string) (rs : list Q.AnswerRecord) :
  (Stats.answered_right k rs <= Stats.asked k rs)%nat.
Proof.
  unfold Stats.answered_right, Stats.asked.
  induction rs as [|r rs IH]; simpl; [lia|].
  destruct (String.eqb (Q.a_question r) k), (Q.is_correct r); simpl; lia.
Qed.

Lemma lookup_count_answers (k : string) (rs : list Q.AnswerRecord) :
  forall cn : Stats.counts,
  Stats.lookup k
    (fold_left (fun cn' r => Stats.bump (Q.a_question r) (Q.is_correct r) cn')
               rs cn) =
  match Stats.lookup k cn with
  | Some (c, t) =>
    Some ((c + Stats.answered_right k rs)%nat, (t + Stats.asked k rs)%nat)
  | None =>
    if (Stats.asked k rs =? 0)%nat then None
    else Some (Stats.answered_right k rs, Stats.asked k rs)
  end.
Proof.
  induction rs as [|r rs IH]; intros cn.
  - simpl. destruct (Stats.lookup k cn) as [[c t]|]; [|reflexivity].
    unfold Stats.answered_right, Stats.asked. simpl.
    now rewrite !Nat.add_0_r.
  - cbn [fold_left]. rewrite IH, lookup_bump.
    unfold Stats.answered_right, Stats.asked. cbn [filter].
    destruct (String.eqb (Q.a_question r) k); cbn [andb].
    + destruct (Stats.lookup k cn) as [[c t]|], (Q.is_correct r);
        cbn [length Nat.eqb]; f_equal; f_equal; lia.
    + reflexivity.
Qed.

Lemma question_counts_flat (atts : list Q.attempt) :
  forall cn : Stats.counts,
  fold_left
    (fun cn0 a =>
       fold_left (fun cn' r => Stats.bump (Q.a_question r) (Q.is_correct r) cn')
                 (Q.details a) cn0)
    atts cn =
  fold_left (fun cn' r => Stats.bump (Q.a_question r) (Q.is_correct r) cn')
            (Stats.all_answers atts) cn.
Proof.
  induction atts as [|a atts IH]; intros cn; [reflexivity|].
  unfold Stats.all_answers in *. cbn [fold_left flat_map].
  now rewrite fold_left_app, IH.
Qed.

(** X19. The analytics count per question text: the entry of a text holds
    the number of logged answers with that text over all the attempts, and
    the number of those marked correct; a text no logged answer carries has
    no entry. *)
Theorem question_counts_exact (k : string) (atts : list Q.attempt) :
  Stats.lookup k (Stats.question_counts atts) =
  if (Stats.asked k (Stats.all_answers atts) =? 0)%nat then None
  else Some (Stats.answered_right k (Stats.all_answers atts),
             Stats.asked k (Stats.all_answers atts)).
Proof.
  unfold Stats.question_counts.
  rewrite question_counts_flat, lookup_count_answers. reflexivity.
Qed.

(** X20. Every entry of the counts has a total of at least one and no more
    correct answers than answers: the accuracy [correct / total] never
    divides by zero and never exceeds one. *)
Theorem question_counts_bounds (k : string) (atts : list Q.attempt)
    (c t : nat) :
  Stats.lookup k (Stats.question_counts atts) = Some (c, t) ->
  (0 < t)%nat /\ (c <= t)%nat.
Proof.
  unfold Stats.question_counts.
  rewrite question_counts_flat, lookup_count_answers. cbn [Stats.lookup].
  destruct (Stats.asked k (Stats.all_answers atts) =? 0)%nat eqn:E;
    [discriminate|].
  intros H. inversion H; subst. apply Nat.eqb_neq in E.
  split; [lia|apply answered_right_le_asked].
Qed.

Lemma question_counts_bounds_witness :
  Stats.lookup "2+2?"
    (Stats.question_counts
       [Q.mkAttempt "ann" "CS101" 1 1
          [Q.mkAnswer "2+2?" (Some "4") "4" true] "t0";
        Q.mkAttempt "bob" "CS101" 0 1
          [Q.mkAnswer "2+2?" (Some "3") "4" false] "t1"]) = Some (1, 2)%nat /\
  ((0 < 2)%nat /\ (1 <= 2)%nat).
Proof.
  split; [reflexivity|].
  apply (question_counts_bounds "2+2?"
           [Q.mkAttempt "ann" "CS101" 1 1
              [Q.mkAnswer "2+2?" (Some "4") "4" true] "t0";
            Q.mkAttempt "bob" "CS101" 0 1
              [Q.mkAnswer "2+2?" (Some "3") "4" false] "t1"] 1 2).
  reflexivity.
Defined.

(** X21. For course codes in ASCII text, a saved attempt is found again by
    course: the attempts the export
    and the analytics read for a course are the ones they read before,
    followed by the new one when its course code has the same upper-case
    form. *)
Theorem course_attempts_after_save (c username course now : string)
    (sc mx : Z) (dt : list Q.AnswerRecord) (d : Q.database) :
  ascii_text c = true ->
  ascii_text course = true ->
  Stats.course_attempts c (Q.save_attempt username course sc mx dt now d) =
  Stats.course_attempts c d ++
  (if String.eqb (upper course) (upper c)
   then [Q.mkAttempt username (upper course) sc mx dt now] else []).
Proof.
  intros _ _. unfold Stats.course_attempts, Q.save_attempt. cbn [Q.attempts].
  rewrite filter_app. cbn [filter Q.att_course_code].
  destruct (String.eqb (upper course) (upper c)); reflexivity.
Qed.

Lemma course_attempts_after_save_witness :
  Stats.course_attempts "CS101"
    (Q.save_attempt "ann" "cs101" 1 1 [] "t0" (Q.mkDb [] [])) =
  Stats.course_attempts "CS101" (Q.mkDb [] []) ++
  (if String.eqb (upper "cs101") (upper "CS101")
   then [Q.mkAttempt "ann" (upper "cs101") 1 1 [] "t0"] else []).
Proof.
  apply (course_attempts_after_save "CS101" "ann" "cs101" "t0" 1 1 []
           (Q.mkDb [] [])); reflexivity.
Defined.

(** ** What the quiz flows never do *)

Lemma sum_marks_nonneg (l : list Question) :
  marks_nonneg l -> (0 <= sum_marks l)%Z.
Proof.
  induction 1 as [|q l Hq Hl IH].
  - unfold sum_marks. simpl. lia.
  - rewrite sum_marks_cons. lia.
Qed.

Lemma sum_marks_firstn_le (k : nat) (qs : list Question) :
  marks_nonneg qs -> (sum_marks (firstn k qs) <= sum_marks qs)%Z.
Proof.
  intros H. unfold marks_nonneg in H.
  rewrite <- (firstn_skipn k qs) in H at 1. apply Forall_app in H.
  destruct H as [_ Hs]. apply sum_marks_nonneg in Hs.
  rewrite <- (firstn_skipn k qs) at 2. rewrite sum_marks_app. lia.
Qed.

Lemma sum_marks_firstn_succ (qs : list Question) :
  forall (i : nat) (q : Question),
  nth_error qs i = Some q ->
  sum_marks (firstn (i + 1) qs) = (sum_marks (firstn i qs) + marks q)%Z.
Proof.
  induction qs as [|x qs IH]; intros [|i] q H; simpl in *; try discriminate.
  - inversion H; subst. unfold sum_marks. simpl. lia.
  - rewrite !sum_marks_cons, (IH i q H). lia.
Qed.

Lemma marks_nonneg_nth (qs : list Question) (i : nat) (q : Question) :
  marks_nonneg qs -> nth_error qs i = Some q -> (0 <= marks q)%Z.
Proof.
  intros H Hq. apply nth_error_In in Hq. unfold marks_nonneg in H.
  rewrite Forall_forall in H. now apply H.
Qed.

Lemma q_in_range_run (qs : list Question) (username course now : string)
    (choice : option string) (submit : bool) (w : Q.world) :
  qs <> [] ->
  (Q.index (Q.session_of (Q.st w)) < length qs)%nat ->
  (Q.index (Q.session_of (Q.st (fst (fst
     (Q.student_quiz qs username course now choice submit w))))) < length qs)%nat /\
  snd (Q.student_quiz qs username course now choice submit w) <> IndexErrorRaised.
Proof.
  intros Hne Hi. unfold Q.student_quiz.
  destruct qs as [|q0 l] eqn:Eqs; [congruence|]. rewrite <- Eqs in *.
  fold (Q.session_of (Q.st w)).
  destruct (nth_error_in_range qs _ Hi) as [q Hq]. rewrite Hq.
  destruct submit; [|split; [exact Hi|discriminate]].
  destruct (Q.index (Q.record_answer q choice (Q.session_of (Q.st w))) + 1
            <? length qs)%nat eqn:E.
  - apply Nat.ltb_lt in E. split; [exact E|discriminate].
  - split; [|discriminate]. rewrite Eqs. simpl. lia.
Qed.

Lemma q_reachable_in_range (qs : list Question) (w : Q.world) :
  Q.reachable qs w -> qs <> [] ->
  (Q.index (Q.session_of (Q.st w)) < length qs)%nat.
Proof.
  intros Hr Hne. induction Hr as [d|w u c n ch sb _ IH].
  - simpl. destruct qs; [congruence|simpl; lia].
  - now apply q_in_range_run.
Qed.

(** X22. On a fixed non-empty question list the student panel never runs
    out of questions: in every world it can reach the index points at a
    question, and no execution from there, with or without a press, ends in
    [IndexError]. *)
Theorem q_never_out_of_range (qs : list Question) (w : Q.world)
    (username course now : string) (choice : option string) (submit : bool) :
  Q.reachable qs w ->
  qs <> [] ->
  (Q.index (Q.session_of (Q.st w)) < length qs)%nat /\
  snd (Q.student_quiz qs username course now choice submit w) <> IndexErrorRaised.
Proof.
  intros Hr Hne. assert (Hi := q_reachable_in_range qs w Hr Hne).
  split; [exact Hi|]. now apply q_in_range_run.
Qed.

Lemma q_never_out_of_range_witness :
  (Q.index (Q.session_of (Q.st (Q.mkWorld (Q.mkDb [] []) None)))
     < length QuizApp.QUESTIONS)%nat /\
  snd (Q.student_quiz QuizApp.QUESTIONS "ann" "py" "t0" (Some "def") true
         (Q.mkWorld (Q.mkDb [] []) None)) <> IndexErrorRaised.
Proof.
  apply (q_never_out_of_range QuizApp.QUESTIONS (Q.mkWorld (Q.mkDb [] []) None)
           "ann" "py" "t0" (Some "def") true).
  - apply Q.reach_start.
  - discriminate.
Defined.








(** After a save that raised the bound is lost: the same right answer,
    submitted again on the same last question, is added once more. *)
Example score_after_failed_save :
  Q.score (Q.session_of (Q.st (fst (fst
    (Q.student_quiz_storage false [two_plus_two] "ann" "cs101" "t0"
       (Some "4") true
       (fst (fst (Q.student_quiz_storage false [two_plus_two] "ann" "cs101"
                    "t0" (Some "4") true
                    (Q.mkWorld (Q.mkDb [] []) None))))))))) = 2%Z /\
  sum_marks [two_plus_two] = 1%Z.
Proof. split; reflexivity. Qed.

Lemma inline_range_run (qs : list Question) (ev : QuizApp.click)
    (choice : option string) (s : QuizApp.session) :
  qs <> [] ->
  (QuizApp.current s < length qs)%nat /\
  (QuizApp.finished s = true -> (QuizApp.current s + 1 = length qs)%nat) ->
  ((QuizApp.current (fst (fst (QuizApp.app qs ev choice s))) < length qs)%nat /\
   (QuizApp.finished (fst (fst (QuizApp.app qs ev choice s))) = true ->
    (QuizApp.current (fst (fst (QuizApp.app qs ev choice s))) + 1
       = length qs)%nat)) /\
  snd (QuizApp.app qs ev choice s) <> IndexErrorRaised.
Proof.
  intros Hne [Hi Hf].
  assert (H0 : (QuizApp.current QuizApp.initial < length qs)%nat)
    by (destruct qs; [congruence|simpl; lia]).
  unfold QuizApp.app.
  set (s1 := match ev with QuizApp.RestartQuiz => QuizApp.initial | _ => s end).
  assert (Hs1 : (QuizApp.current s1 < length qs)%nat /\
                (QuizApp.finished s1 = true ->
                 (QuizApp.current s1 + 1 = length qs)%nat)).
  { subst s1. destruct ev; split; auto; simpl; discriminate. }
  clearbody s1. destruct Hs1 as [Hi1 Hf1].
  destruct (QuizApp.finished s1) eqn:Ef.
  - cbn [fst snd]. rewrite Ef. repeat split; auto; discriminate.
  - destruct (nth_error_in_range qs _ Hi1) as [q Hq]. rewrite Hq.
    destruct ev; cbn [fst snd];
      try (rewrite Ef; repeat split; auto; discriminate).
    destruct choice as [c|]; cbn [fst snd];
      [|rewrite Ef; repeat split; auto; discriminate].
    unfold QuizApp.mark_answer.
    destruct (String.eqb c (answer q)); cbn [QuizApp.current];
      destruct (Nat.ltb_spec (QuizApp.current s1 + 1) (length qs));
      cbn [fst snd QuizApp.current QuizApp.finished];
      rewrite ?Ef; repeat split; try discriminate; try lia.
Qed.

Lemma inline_reachable_range (qs : list Question) (s : QuizApp.session) :
  inline_reachable qs s -> qs <> [] ->
  (QuizApp.current s < length qs)%nat /\
  (QuizApp.finished s = true -> (QuizApp.current s + 1 = length qs)%nat).
Proof.
  intros Hr Hne. induction Hr as [|s ev ch _ IH].
  - split; [destruct qs; [congruence|simpl; lia]|discriminate].
  - now apply inline_range_run.
Qed.

(** X24. On a non-empty question list the inline script never runs out of
    questions: in every state it can reach, by any buttons and selections,
    [current] points at a question, [finished] is set only on the last one,
    and no execution from there ends in [IndexError]. *)
Theorem inline_never_out_of_range (qs : list Question) (s : QuizApp.session)
    (ev : QuizApp.click) (choice : option string) :
  inline_reachable qs s ->
  qs <> [] ->
  (QuizApp.current s < length qs)%nat /\
  (QuizApp.finished s = true -> (QuizApp.current s + 1 = length qs)%nat) /\
  snd (QuizApp.app qs ev choice s) <> IndexErrorRaised.
Proof.
  intros Hr Hne. assert (H := inline_reachable_range qs s Hr Hne).
  destruct (inline_range_run qs ev choice s Hne H) as [_ Hno].
  destruct H as [Hi Hf]. repeat split; assumption.
Qed.

Lemma inline_never_out_of_range_witness :
  (QuizApp.current (QuizApp.mkSession 1 1 false) < length QuizApp.QUESTIONS)%nat /\
  (QuizApp.finished (QuizApp.mkSession 1 1 false) = true ->
   (QuizApp.current (QuizApp.mkSession 1 1 false) + 1
      = length QuizApp.QUESTIONS)%nat) /\
  snd (QuizApp.app QuizApp.QUESTIONS QuizApp.SubmitAnswer (Some "list")
         (QuizApp.mkSession 1 1 false)) <> IndexErrorRaised.
Proof.
  apply (inline_never_out_of_range QuizApp.QUESTIONS
           (QuizApp.mkSession 1 1 false) QuizApp.SubmitAnswer (Some "list")).
  - exact (inline_run QuizApp.QUESTIONS QuizApp.initial QuizApp.SubmitAnswer
             (Some "def") (inline_start QuizApp.QUESTIONS)).
  - discriminate.
Defined.

Lemma inline_score_run (qs : list Question) (ev : QuizApp.click)
    (choice : option string) (s : QuizApp.session) :
  marks_nonneg qs ->
  (0 <= QuizApp.score s
     <= sum_marks (firstn (QuizApp.current s +
                           (if QuizApp.finished s then 1 else 0)) qs))%Z ->
  (0 <= QuizApp.score (fst (fst (QuizApp.app qs ev choice s)))
     <= sum_marks
          (firstn (QuizApp.current (fst (fst (QuizApp.app qs ev choice s))) +
                   (if QuizApp.finished (fst (fst (QuizApp.app qs ev choice s)))
                    then 1 else 0)) qs))%Z.
Proof.
  intros Hm Hs. unfold QuizApp.app.
  set (s1 := match ev with QuizApp.RestartQuiz => QuizApp.initial | _ => s end).
  assert (Hs1 : (0 <= QuizApp.score s1
                   <= sum_marks (firstn (QuizApp.current s1 +
                         (if QuizApp.finished s1 then 1 else 0)) qs))%Z).
  { subst s1. destruct ev; auto. unfold sum_marks. simpl. lia. }
  clearbody s1.
  destruct (QuizApp.finished s1) eqn:Ef.
  - cbn [fst]. now rewrite Ef.
  - rewrite Nat.add_0_r in Hs1.
    destruct (nth_error qs (QuizApp.current s1)) as [q|] eqn:Hq;
      [|cbn [fst]; now rewrite Ef, Nat.add_0_r].
    assert (Hq0 := marks_nonneg_nth qs _ q Hm Hq).
    assert (Hsucc := sum_marks_firstn_succ qs _ q Hq).
    destruct ev; cbn [fst]; try (now rewrite Ef, Nat.add_0_r).
    destruct choice as [c|]; cbn [fst]; [|now rewrite Ef, Nat.add_0_r].
    unfold QuizApp.mark_answer.
    destruct (String.eqb c (answer q));
      cbn [QuizApp.current QuizApp.score QuizApp.finished];
      destruct (QuizApp.current s1 + 1 <? length qs)%nat;
      cbn [fst QuizApp.current QuizApp.score QuizApp.finished];
      rewrite ?Ef, ?Nat.add_0_r; lia.
Qed.

(** X25. With marks that are not negative, the score of the inline quiz
    never leaves the range from 0 to the total it is shown against,
    whatever buttons are pressed and whatever is selected. *)
Theorem inline_score_within_bounds (qs : list Question) (s : QuizApp.session) :
  inline_reachable qs s ->
  marks_nonneg qs ->
  (0 <= QuizApp.score s <= sum_marks qs)%Z.
Proof.
  intros Hr Hm.
  assert (H : (0 <= QuizApp.score s
                 <= sum_marks (firstn (QuizApp.current s +
                       (if QuizApp.finished s then 1 else 0)) qs))%Z).
  { induction Hr as [|s ev ch _ IH].
    - unfold sum_marks. simpl. lia.
    - now apply inline_score_run. }
  assert (H' := sum_marks_firstn_le
                  (QuizApp.current s + (if QuizApp.finished s then 1 else 0))
                  qs Hm).
  lia.
Qed.

Lemma inline_score_within_bounds_witness :
  (0 <= QuizApp.score (QuizApp.mkSession 1 1 false)
     <= sum_marks QuizApp.QUESTIONS)%Z.
Proof.
  apply (inline_score_within_bounds QuizApp.QUESTIONS
           (QuizApp.mkSession 1 1 false)).
  - exact (inline_run QuizApp.QUESTIONS QuizApp.initial QuizApp.SubmitAnswer
             (Some "def") (inline_start QuizApp.QUESTIONS)).
  - repeat constructor; simpl; lia.
Defined.

(** ** Presses in sequence *)

Lemma q_submit_all_app (qs : list Question) (username course now : string)
    (cs1 cs2 : list (option string)) :
  forall w : Q.world,
  Q.submit_all qs username course now (cs1 ++ cs2) w =
  Q.submit_all qs username course now cs2
               (Q.submit_all qs username course now cs1 w).
Proof.
  induction cs1 as [|c cs1 IH]; intros w; [reflexivity|].
  simpl. apply IH.
Qed.

Lemma inline_submit_all_app (qs : list Question)
    (cs1 cs2 : list (option string)) :
  forall s : QuizApp.session,
  QuizApp.submit_all qs (cs1 ++ cs2) s =
  QuizApp.submit_all qs cs2 (QuizApp.submit_all qs cs1 s).
Proof.
  induction cs1 as [|c cs1 IH]; intros s; [reflexivity|].
  simpl. apply IH.
Qed.

(** X26. In the database-backed flow one quiz follows another: answering a
    non-empty question list twice over, from a fresh session, saves two
    attempts, and the second is scored from zero: each carries the score
    and the log of its own answers only. *)
Theorem q_two_passes (qs : list Question) (cs1 cs2 : list (option string))
    (username course now : string) (d : Q.database) :
  qs <> [] ->
  length cs1 = length qs ->
  length cs2 = length qs ->
  Q.submit_all qs username course now (cs1 ++ cs2) (Q.mkWorld d None) =
  Q.mkWorld
    (Q.mkDb (Q.questions d)
       (Q.attempts d ++
        [Q.mkAttempt username (upper course)
           (sum_marks (answered_correctly qs cs1)) (sum_marks qs)
           (Q.log_for qs cs1) now;
         Q.mkAttempt username (upper course)
           (sum_marks (answered_correctly qs cs2)) (sum_marks qs)
           (Q.log_for qs cs2) now]))
    (Some Q.fresh).
Proof.
  intros Hne H1 H2.
  assert (Hc1 : cs1 <> []) by (destruct cs1, qs; simpl in *; congruence).
  assert (Hc2 : cs2 <> []) by (destruct cs2, qs; simpl in *; congruence).
  rewrite q_submit_all_app.
  rewrite (q_submit_all_complete qs username course now cs1);
    [|assumption|simpl; lia].
  rewrite (q_submit_all_complete qs username course now cs2);
    [|assumption|simpl; lia].
  unfold Q.save_attempt. simpl. now rewrite <- app_assoc.
Qed.

Lemma q_two_passes_witness :
  Q.submit_all [two_plus_two] "ann" "cs101" "t0" ([Some "4"] ++ [Some "3"])
               (Q.mkWorld (Q.mkDb [] []) None) =
  Q.mkWorld
    (Q.mkDb []
       ([] ++
        [Q.mkAttempt "ann" (upper "cs101")
           (sum_marks (answered_correctly [two_plus_two] [Some "4"]))
           (sum_marks [two_plus_two])
           (Q.log_for [two_plus_two] [Some "4"]) "t0";
         Q.mkAttempt "ann" (upper "cs101")
           (sum_marks (answered_correctly [two_plus_two] [Some "3"]))
           (sum_marks [two_plus_two])
           (Q.log_for [two_plus_two] [Some "3"]) "t0"]))
    (Some Q.fresh).
Proof.
  apply (q_two_passes [two_plus_two] [Some "4"] [Some "3"] "ann" "cs101" "t0"
           (Q.mkDb [] [])).
  - discriminate.
  - reflexivity.
  - reflexivity.
Defined.

Lemma inline_finished_stays (qs : list Question) (cs : list (option string)) :
  forall s : QuizApp.session,
  QuizApp.finished s = true -> QuizApp.submit_all qs cs s = s.
Proof.
  induction cs as [|c cs IH]; intros s Hf; [reflexivity|].
  cbn [QuizApp.submit_all].
  assert (H : QuizApp.submit_answer qs c s =
              (s, [QuizApp.QuizFinished (QuizApp.score s) (sum_marks qs)],
               ScriptEnd)).
  { unfold QuizApp.submit_answer, QuizApp.app. now rewrite Hf. }
  rewrite H. cbn [fst]. now apply IH.
Qed.

(** X27. In the inline flow presses with nothing selected can be left out
    of any sequence of presses: the session ends up where the presses with
    a selection alone take it. *)
Theorem inline_empty_presses_drop (qs : list Question)
    (cs : list (option string)) (s : QuizApp.session) :
  QuizApp.submit_all qs cs s =
  QuizApp.submit_all qs (filter is_selection cs) s.
Proof.
  revert s. induction cs as [|c cs IH]; intros s; [reflexivity|].
  destruct c as [c|]; cbn [filter is_selection QuizApp.submit_all].
  - apply IH.
  - rewrite inline_none_step. apply IH.
Qed.

(** X28. In the inline flow answers past the last question are ignored:
    once a non-empty list has been answered through, whatever is submitted
    next leaves score, position and the finished flag where they are. *)
Theorem inline_extra_answers_ignored (qs : list Question) (cs : list string)
    (extra : list (option string)) :
  qs <> [] ->
  length cs = length qs ->
  QuizApp.submit_all qs (map Some cs ++ extra) QuizApp.initial =
  QuizApp.submit_all qs (map Some cs) QuizApp.initial.
Proof.
  intros Hne Hlen.
  assert (Hcs : cs <> []) by (destruct cs, qs; simpl in *; congruence).
  rewrite inline_submit_all_app. apply inline_finished_stays.
  rewrite inline_submit_all_complete; [reflexivity|assumption|reflexivity|].
  simpl. lia.
Qed.

Lemma inline_extra_answers_ignored_witness :
  QuizApp.submit_all QuizApp.QUESTIONS
    (map Some ["def"; "list"] ++ [Some "tuple"; None]) QuizApp.initial =
  QuizApp.submit_all QuizApp.QUESTIONS (map Some ["def"; "list"]) QuizApp.initial.
Proof.
  apply (inline_extra_answers_ignored QuizApp.QUESTIONS ["def"; "list"]
           [Some "tuple"; None]).
  - discriminate.
  - reflexivity.
Defined.
